(** * argos-badge-relay: notification registry, renderer and publisher

    A shallow embedding of [argos-server.go].  Go strings are byte
    sequences, so they are [string]s of [ascii] bytes here (a non-ASCII
    glyph such as the middle dot is its two UTF-8 bytes).  The registry
    [map[appname]notification] is a [gmap]; the order in which a Go
    [range] visits a map is unspecified, so every function that ranges
    over the registry takes the order it was served as an argument. *)

From Stdlib Require Import ZArith String Ascii List Lia.
From stdpp Require Import gmap strings list sorting pretty.

Set Warnings "-register-all".

Open Scope string_scope.
Open Scope Z_scope.

(** ** The Go library functions the server calls *)

Module strings.

(** [strings.HasPrefix(s, prefix)] *)
Definition HasPrefix (s prefix : string) : bool := String.prefix prefix s.

(** [strings.Join(elems, sep)] *)
Fixpoint Join (elems : list string) (sep : string) : string :=
  match elems with
  | [] => ""
  | [e] => e
  | e :: rest => e ++ sep ++ Join rest sep
  end.

End strings.

Module sort.

(** [sort.Strings(x)] sorts a slice of strings in increasing order of
    Go's [<] on strings, which compares byte by byte.  [String.le] is
    that order; the sorted permutation of a list under it is unique
    (lemma [Strings_unique] below), so the algorithm does not matter. *)
Definition Strings (x : list string) : list string := merge_sort String.le x.

End sort.

Module fmt.

(** [fmt.Sprint(a, b)] on two string operands: Sprint separates
    operands by a space only when neither is a string. *)
Definition Sprint2 (a b : string) : string := a ++ b.

(** [fmt.Println]-style formatting, as used by [log.Println]: the
    operands separated by single spaces. *)
Definition Sprintln (args : list string) : string := strings.Join args " ".

End fmt.

(** [len(s)] and the slice expression [s[n:]] on a Go string. *)
Definition len (s : string) : nat := String.length s.
Definition slice_from (n : nat) (s : string) : string :=
  substring n (String.length s - n) s.

Module time.

(** A [time.Duration] is an int64 count of nanoseconds. *)
Definition Duration := Z.
Definition minDuration : Duration := - 2 ^ 63.
Definition maxDuration : Duration := 2 ^ 63 - 1.
Definition Millisecond : Duration := 1000000.
Definition Minute : Duration := 60 * 1000 * Millisecond.

(** An instant, in nanoseconds on the clock [time.Now] reads. *)
Definition Time := Z.

(** [t.Sub(u)]: the difference, saturated to the int64 range. *)
Definition Sub (t u : Time) : Duration :=
  if t - u <? minDuration then minDuration
  else if maxDuration <? t - u then maxDuration
  else t - u.

(** [time.Since(t)] is [time.Now().Sub(t)]; [now] is what [time.Now]
    returned. *)
Definition Since (now t : Time) : Duration := Sub now t.

End time.

(** ** Constants and the data model *)

Definition unknownAppIcon : string := "·".
Definition impossibleNotificationStatus : string := "-".

Abbreviation appname := string.

Definition appDisplayIcons : gmap appname string :=
  list_to_map
    [ ("mail.hobsons.com", "σ");
      ("hobsons.slack.com", "@");
      ("hangouts.google.com", "π") ].

Definition notificationMaxLifetime : time.Duration := time.Minute * 30.

Record notification := mkNotification {
  label : string;
  updatedAt : time.Time
}.

Definition error := string.

Record ArgosNotificationServer := mkServer {
  Host : string;
  Port : Z;
  ArgosHome : string;
  lastNotificationStatus : string;
  notifications : gmap appname notification
}.

Definition set_lastNotificationStatus (st : string) (s : ArgosNotificationServer) :=
  {| Host := Host s; Port := Port s; ArgosHome := ArgosHome s;
     lastNotificationStatus := st; notifications := notifications s |}.

Definition set_notifications (m : gmap appname notification) (s : ArgosNotificationServer) :=
  {| Host := Host s; Port := Port s; ArgosHome := ArgosHome s;
     lastNotificationStatus := lastNotificationStatus s; notifications := m |}.

Definition set_Host (h : string) (s : ArgosNotificationServer) :=
  {| Host := h; Port := Port s; ArgosHome := ArgosHome s;
     lastNotificationStatus := lastNotificationStatus s;
     notifications := notifications s |}.

(** A Go map read [m[k]] yields the zero value when [k] is absent. *)
Definition map_index (m : gmap appname string) (k : appname) : string :=
  default "" (m !! k).

(** The order a [range] over the registry visits its entries in: some
    enumeration of the entries, chosen afresh by the runtime at every
    loop. *)
Definition rangeOrder := gmap appname notification → list (appname * notification).

Definition RangeOrder (range : rangeOrder) : Prop :=
  ∀ m, range m ≡ₚ map_to_list m.

(** ** Renderer *)

Definition notificationDisplay (app : appname) (notifications : notification) : string :=
  if bool_decide (label notifications = "") || bool_decide (label notifications = "0")
  then ""
  else
    let appIcon := map_index appDisplayIcons app in
    let appIcon := if bool_decide (appIcon = "") then unknownAppIcon else appIcon in
    if bool_decide (label notifications = "1") then appIcon
    else fmt.Sprint2 appIcon (label notifications).

(** The loop of [NotificationStatus] over the entries in the order they
    are visited: [visibleNotifications] grows by [append]. *)
Fixpoint visibleNotifications (entries : list (appname * notification))
    (acc : list string) : list string :=
  match entries with
  | [] => acc
  | (app, n) :: rest =>
      let appDisplay := notificationDisplay app n in
      if bool_decide (appDisplay ≠ "")
      then visibleNotifications rest (acc ++ [appDisplay])
      else visibleNotifications rest acc
  end.

Definition NotificationStatus (range : rangeOrder) (s : ArgosNotificationServer) : string :=
  strings.Join (sort.Strings (visibleNotifications (range (notifications s)) [])) " ".

(** ** Registry: upsert and eviction *)

Definition updateArgosStatus (now : time.Time) (app notifications_ : string)
    (s : ArgosNotificationServer) : ArgosNotificationServer :=
  set_notifications
    (<[ app := {| label := notifications_; updatedAt := now |} ]> (notifications s)) s.

(** First loop of [pruneStaleNotifications]: the keys to drop. *)
Fixpoint defunctApps (now : time.Time) (entries : list (appname * notification))
    (acc : list appname) : list appname :=
  match entries with
  | [] => acc
  | (app, n) :: rest =>
      if notificationMaxLifetime <? time.Since now (updatedAt n)
      then defunctApps now rest (acc ++ [app])
      else defunctApps now rest acc
  end.

(** Second loop: [delete(s.notifications, app)] for each of them. *)
Fixpoint deleteApps (apps : list appname) (m : gmap appname notification)
    : gmap appname notification :=
  match apps with
  | [] => m
  | app :: rest => deleteApps rest (delete app m)
  end.

(** [pruneStaleNotifications] has no result: it only updates the server. *)
Definition pruneStaleNotifications (now : time.Time) (range : rangeOrder)
    (s : ArgosNotificationServer) : ArgosNotificationServer * unit :=
  let apps := defunctApps now (range (notifications s)) [] in
  (set_notifications (deleteApps apps (notifications s)) s, tt).

(** ** Ingress handler *)

Definition StatusOK : Z := 200.
Definition StatusBadRequest : Z := 400.

(** What [json.NewDecoder(r.Body).Decode] reads: the first JSON value of
    the body, or the error of reading it (an empty body, a syntax
    error). *)
Inductive json :=
| JNull
| JBool (b : bool)
| JNumber (literal : string)
| JString (s : string)
| JArray (elems : list json)
| JObject (members : list (string * json)).

Inductive body :=
| BodyError (err : error)
| BodyValue (v : json).

Record Request := mkRequest {
  Method : string;
  URLPath : string;
  Body : body
}.

Module encoding_json.

(** Object keys are matched to the struct field tagged [label] exactly
    or ignoring ASCII case (no letter of [label] has a non-ASCII case
    variant). *)
Definition foldByte (c : ascii) : ascii :=
  let n := nat_of_ascii c in
  if (97 <=? n)%nat && (n <=? 122)%nat then ascii_of_nat (n - 32) else c.

Fixpoint foldName (s : string) : string :=
  match s with
  | EmptyString => EmptyString
  | String c rest => String (foldByte c) (foldName rest)
  end.

Definition isLabelKey (key : string) : bool :=
  bool_decide (foldName key = foldName "label").

(** The decoder keeps the first type error and goes on. *)
Definition saveError (err : error) (saved : option error) : option error :=
  match saved with
  | None => Some err
  | Some _ => saved
  end.

(** Storing a member value into the [string] field [Label]: a string
    is stored, [null] leaves the field alone, anything else is a type
    error. *)
Definition storeLabel (v : json) (st : string * option error) : string * option error :=
  match v with
  | JString s => (s, snd st)
  | JNull => st
  | JBool _ => (fst st, saveError "json: cannot unmarshal bool into Go struct field .label of type string" (snd st))
  | JNumber _ => (fst st, saveError "json: cannot unmarshal number into Go struct field .label of type string" (snd st))
  | JArray _ => (fst st, saveError "json: cannot unmarshal array into Go struct field .label of type string" (snd st))
  | JObject _ => (fst st, saveError "json: cannot unmarshal object into Go struct field .label of type string" (snd st))
  end.

Definition storeMember (st : string * option error) (kv : string * json)
    : string * option error :=
  if isLabelKey (fst kv) then storeLabel (snd kv) st else st.

(** [Decode(&notification)] for
    [var notification struct { Label string `json:"label"` }]:
    the field after decoding, and the error. *)
Definition Decode (b : body) (Label : string) : string * option error :=
  match b with
  | BodyError err => (Label, Some err)
  | BodyValue JNull => (Label, None)
  | BodyValue (JObject members) => fold_left storeMember members (Label, None)
  | BodyValue (JBool _) => (Label, Some "json: cannot unmarshal bool into Go value of type struct { Label string }")
  | BodyValue (JNumber _) => (Label, Some "json: cannot unmarshal number into Go value of type struct { Label string }")
  | BodyValue (JString _) => (Label, Some "json: cannot unmarshal string into Go value of type struct { Label string }")
  | BodyValue (JArray _) => (Label, Some "json: cannot unmarshal array into Go value of type struct { Label string }")
  end.

End encoding_json.

(** Everything the server does to the outside, in the order it happens. *)
Inductive event :=
| EvLog (line : string)
| EvCreate (path : string)
| EvFprintln (path : string) (data : string)
| EvClose (path : string)
| EvRename (oldpath newpath : string)
| EvSleep (d : time.Duration).

Record World := mkWorld {
  files : gmap string string;
  trace : list event
}.

Definition emit (e : event) (w : World) : World :=
  {| files := files w; trace := trace w ++ [e] |}.

Definition set_file (path data : string) (w : World) : World :=
  {| files := <[ path := data ]> (files w); trace := trace w |}.

Definition log_Println (args : list string) (w : World) : World :=
  emit (EvLog (fmt.Sprintln args)) w.

Definition requestURLNotificationApp (path : string) : string * option error :=
  if (len path <? 2)%nat || negb (strings.HasPrefix path "/")
  then ("", Some "no slash prefix")
  else (slice_from 1 path, None).

Definition ServeHTTP (now : time.Time) (r : Request)
    (s : ArgosNotificationServer) (w : World)
    : ArgosNotificationServer * World * Z :=
  match requestURLNotificationApp (URLPath r) with
  | (_, Some err) =>
      (s, log_Println ["Request to invalid path"; URLPath r; ":"; err] w, StatusBadRequest)
  | (notifyingApp, None) =>
      match encoding_json.Decode (Body r) "" with
      | (_, Some _) =>
          (s, log_Println ["JSON payload doesn't contain label"] w, StatusBadRequest)
      | (Label, None) =>
          (updateArgosStatus now notifyingApp Label s, w, StatusOK)
      end
  end.

(** ** Start-up *)

Definition init (s : ArgosNotificationServer) : ArgosNotificationServer * option error :=
  if bool_decide (Port s = 0) then (s, Some "server port not set")
  else if bool_decide (ArgosHome s = "") then (s, Some "Argos home directory not set")
  else
    let s := if bool_decide (Host s = "") then set_Host "localhost" s else s in
    (set_lastNotificationStatus impossibleNotificationStatus (set_notifications ∅ s), None).

(** ** Publisher *)

(** What the operating system answers during one attempt to write the
    status file: each of the three calls may fail; a failed
    [Fprintln] may have written part of the line. *)
Record osAnswers := mkOsAnswers {
  createErr : option error;
  fprintlnErr : option (error * string);
  renameErr : option error
}.

Definition osAllFine : osAnswers :=
  {| createErr := None; fprintlnErr := None; renameErr := None |}.

(** The environment of one pass of the publisher loop. *)
Record cycleEnv := mkCycleEnv {
  cycleNow : time.Time;
  pruneRange : rangeOrder;
  statusRange : rangeOrder;
  cycleOs : osAnswers
}.

Definition newline : string := String (ascii_of_nat 10) "".

Section Publisher.

(** [filepath.Join] of the standard library. *)
Variable filepath_Join : string → string → string.

Definition argosNotificationFilepath (s : ArgosNotificationServer) : string :=
  filepath_Join (ArgosHome s) ".notifications".

Definition argosNotificationTempFilepath (s : ArgosNotificationServer) : string :=
  filepath_Join (ArgosHome s) ".notifications.tmp".

Definition os_Create (os : osAnswers) (path : string) (w : World) : World * option error :=
  let w := emit (EvCreate path) w in
  match createErr os with
  | Some err => (w, Some err)
  | None => (set_file path "" w, None)
  end.

Definition fmt_Fprintln (os : osAnswers) (path : string) (a : string) (w : World)
    : World * option error :=
  let w := emit (EvFprintln path (a ++ newline)) w in
  match fprintlnErr os with
  | Some (err, partial) => (set_file path partial w, Some err)
  | None => (set_file path (a ++ newline) w, None)
  end.

Definition os_Rename (os : osAnswers) (oldpath newpath : string) (w : World)
    : World * option error :=
  let w := emit (EvRename oldpath newpath) w in
  match renameErr os with
  | Some err => (w, Some err)
  | None =>
      match files w !! oldpath with
      | Some data =>
          ({| files := <[ newpath := data ]> (delete oldpath (files w));
              trace := trace w |}, None)
      | None => (w, Some "rename: no such file or directory")
      end
  end.

Definition writeNotificationTempFile (os : osAnswers) (s : ArgosNotificationServer)
    (status : string) (w : World) : World * (string * option error) :=
  let tmpFilePath := argosNotificationTempFilepath s in
  match os_Create os tmpFilePath w with
  | (w, Some err) => (w, (tmpFilePath, Some err))
  | (w, None) =>
      let '(w, err) := fmt_Fprintln os tmpFilePath status w in
      (* deferred statusFH.Close() *)
      (emit (EvClose tmpFilePath) w, (tmpFilePath, err))
  end.

Definition writeNotificationStatus (range : rangeOrder) (os : osAnswers)
    (s : ArgosNotificationServer) (w : World)
    : ArgosNotificationServer * World * option error :=
  let notificationStatus := NotificationStatus range s in
  if bool_decide (notificationStatus = lastNotificationStatus s) then (s, w, None)
  else
    let s := set_lastNotificationStatus notificationStatus s in
    match writeNotificationTempFile os s notificationStatus w with
    | (w, (_, Some err)) => (s, w, Some err)
    | (w, (tempFilePath, None)) =>
        let '(w, err) := os_Rename os tempFilePath (argosNotificationFilepath s) w in
        (s, w, err)
    end.

(** The body of the [for] loop of [PushArgosStatus]. *)
Definition pushCycle (env : cycleEnv) (s : ArgosNotificationServer) (w : World)
    : ArgosNotificationServer * World :=
  let '(s, _) := pruneStaleNotifications (cycleNow env) (pruneRange env) s in
  let '(s, w, err) := writeNotificationStatus (statusRange env) (cycleOs env) s w in
  let w := match err with
           | Some err => log_Println ["error writing notification status:"; err] w
           | None => w
           end in
  (s, emit (EvSleep (4700 * time.Millisecond)) w).

(** [PushArgosStatus] never returns; this is its run up to the end of
    the pass number [length envs]. *)
Fixpoint PushArgosStatus (envs : list cycleEnv) (s : ArgosNotificationServer)
    (w : World) : ArgosNotificationServer * World :=
  match envs with
  | [] => (s, w)
  | env :: rest =>
      let '(s, w) := pushCycle env s w in
      PushArgosStatus rest s w
  end.

End Publisher.

(** The attempts to write the status file in a trace: each begins by
    creating the temporary file. *)
Definition isFileWrite (e : event) : bool :=
  match e with
  | EvCreate _ => true
  | _ => false
  end.

Definition fileWrites (t : list event) : nat := length (List.filter isFileWrite t).

Definition isFileCall (e : event) : bool :=
  match e with
  | EvCreate _ | EvFprintln _ _ | EvClose _ | EvRename _ _ => true
  | EvLog _ | EvSleep _ => false
  end.

(** The events a step added to the trace. *)
Definition newEvents (before after : World) : list event :=
  drop (length (trace before)) (trace after).

(** ** Specification-side vocabulary *)

(** The non-empty per-source display fragments of a list of registry
    entries, as the specification of the renderer words it. *)
Definition spec_fragments (entries : list (appname * notification)) : list string :=
  filter (λ d, d ≠ "") ((λ e, notificationDisplay e.1 e.2) <$> entries).

(** A record is stale when its age exceeds thirty minutes, counted in
    nanoseconds. *)
Definition thirtyMinutes : Z := 30 * 60 * 1000000000.

Definition stale (now : time.Time) (n : notification) : Prop :=
  now - updatedAt n > thirtyMinutes.

Global Instance stale_dec now n : Decision (stale now n).
Proof. unfold stale. apply _. Defined.

(** The status file holds the marker and a line feed. *)
Definition inSync (filepath_Join : string → string → string)
    (s : ArgosNotificationServer) (w : World) : Prop :=
  files w !! argosNotificationFilepath filepath_Join s
  = Some (lastNotificationStatus s ++ newline).

(** The handler serving a sequence of requests, one after the other. *)
Fixpoint serveAll (reqs : list (time.Time * Request))
    (s : ArgosNotificationServer) (w : World) : ArgosNotificationServer * World :=
  match reqs with
  | [] => (s, w)
  | (now, r) :: rest =>
      let '(s, w, _) := ServeHTTP now r s w in
      serveAll rest s w
  end.

(** ** Construction *)

(** An option updates the server it is applied to. *)
Definition ArgosNotificationOption := ArgosNotificationServer → ArgosNotificationServer.

Definition set_Port (p : Z) (s : ArgosNotificationServer) :=
  {| Host := Host s; Port := p; ArgosHome := ArgosHome s;
     lastNotificationStatus := lastNotificationStatus s;
     notifications := notifications s |}.

Definition set_ArgosHome (home : string) (s : ArgosNotificationServer) :=
  {| Host := Host s; Port := Port s; ArgosHome := home;
     lastNotificationStatus := lastNotificationStatus s;
     notifications := notifications s |}.

Definition ServerHost (host : string) : ArgosNotificationOption := set_Host host.
Definition ServerPort (port : Z) : ArgosNotificationOption := set_Port port.
(** The option the source names [ArgosHome], like the field it sets. *)
Definition ArgosHomeOption (home : string) : ArgosNotificationOption := set_ArgosHome home.

(** [&ArgosNotificationServer{}]: every field at its zero value (the nil
    map reads as the empty one). *)
Definition zeroServer : ArgosNotificationServer :=
  {| Host := ""; Port := 0; ArgosHome := ""; lastNotificationStatus := "";
     notifications := ∅ |}.

Definition NewArgosNotificationServer (opts : list ArgosNotificationOption)
    : ArgosNotificationServer * option error :=
  let server := fold_left (λ server opt, opt server) opts zeroServer in
  init server.

(** [fmt.Sprintf("%s:%d", s.Host, s.Port)]: the verb [%d] prints the
    decimal digits, after a minus sign for a negative number. *)
Definition ListenAddr (s : ArgosNotificationServer) : string :=
  Host s ++ ":" ++ pretty (Port s).

(** ** Home directory expansion (argos-relay-main.go) *)

Section ExpandHomeDir.

(** [filepath.Join], and the home directory [user.Current] reports
    ([None] when it returns an error). *)
Variable filepath_Join : string → string → string.
Variable currentUserHomeDir : option string.

(** [None] is the panic. *)
Definition expandHomeDir (path : string) : option string :=
  if negb (strings.HasPrefix path "~/") then Some path
  else
    match currentUserHomeDir with
    | None => None
    | Some home => Some (filepath_Join home (slice_from 2 path))
    end.

End ExpandHomeDir.

(** The error an attempt to write the status file ends with: that of
    the first of its three calls to fail. *)
Definition firstFailure (os : osAnswers) : option error :=
  match createErr os with
  | Some err => Some err
  | None =>
      match fprintlnErr os with
      | Some (err, _) => Some err
      | None => renameErr os
      end
  end.

Definition isSleep (e : event) : bool :=
  match e with
  | EvSleep _ => true
  | _ => false
  end.

(** A [filepath.Join] for the sample runs: the two elements with a
    slash between them. *)
Definition sampleJoin (dir name : string) : string := dir ++ "/" ++ name.

Definition sampleEnv : cycleEnv :=
  {| cycleNow := 1800000001001; pruneRange := map_to_list;
     statusRange := λ m, reverse (map_to_list m); cycleOs := osAllFine |}.

(** The disk is full: the temporary file is created, writing to it
    fails. *)
Definition diskFull : osAnswers :=
  {| createErr := None; fprintlnErr := Some ("no space left on device", "");
     renameErr := None |}.

(** ** Sample states *)

Definition sampleRegistry : gmap appname notification :=
  list_to_map
    [ ("unknown.app", {| label := "5"; updatedAt := 1000 |});
      ("mail.hobsons.com", {| label := "2"; updatedAt := 2000000000000 |});
      ("hobsons.slack.com", {| label := "0"; updatedAt := 2000000000000 |}) ].

Definition sampleServer : ArgosNotificationServer :=
  {| Host := "localhost"; Port := 18989; ArgosHome := "/home/u/.config/argos";
     lastNotificationStatus := impossibleNotificationStatus;
     notifications := sampleRegistry |}.

(** One nanosecond after [unknown.app] of the sample registry turned
    thirty minutes old. *)
Definition sampleNow : time.Time := 1800000001001.

Definition reverseRange : rangeOrder := λ m, reverse (map_to_list m).

Definition emptyWorld : World := {| files := ∅; trace := [] |}.

(** The server as the options leave it, before [init]. *)
Definition sampleConfig : ArgosNotificationServer :=
  {| Host := ""; Port := 18989; ArgosHome := "/home/u/.config/argos";
     lastNotificationStatus := ""; notifications := ∅ |}.

(** A pass of the publisher on a full disk, at a time when no sample
    record is stale. *)
Definition quietEnv : cycleEnv :=
  {| cycleNow := 10; pruneRange := map_to_list;
     statusRange := λ m, reverse (map_to_list m); cycleOs := diskFull |}.

(** * Properties *)

(** ** Library functions *)

Lemma RangeOrder_map_to_list : RangeOrder map_to_list.
Proof. intros m. reflexivity. Qed.

Lemma RangeOrder_reverse : RangeOrder reverseRange.
Proof. intros m. apply reverse_Permutation. Qed.

Lemma RangeOrder_elem_of range m app n :
  RangeOrder range → (app, n) ∈ range m ↔ m !! app = Some n.
Proof.
  intros Hr. rewrite (Hr m). apply elem_of_map_to_list.
Qed.

Lemma Strings_sorted x : Sorted String.le (sort.Strings x).
Proof. apply Sorted_merge_sort. apply _. Qed.

Lemma Strings_permutation x : sort.Strings x ≡ₚ x.
Proof. apply merge_sort_Permutation. Qed.

(** Any sorted rearrangement of [x] is [sort.Strings x]. *)
Lemma Strings_unique x y :
  Sorted String.le y → y ≡ₚ x → y = sort.Strings x.
Proof.
  intros Hs Hp. apply (Sorted_unique String.le); auto using Strings_sorted.
  rewrite Hp. symmetry. apply Strings_permutation.
Qed.

Lemma Strings_proper x y : x ≡ₚ y → sort.Strings x = sort.Strings y.
Proof.
  intros Hp. apply Strings_unique; [apply Strings_sorted|].
  rewrite Strings_permutation. exact Hp.
Qed.

Lemma Strings_nil_inv x : sort.Strings x = [] → x = [].
Proof.
  intros H. apply Permutation_nil_r. rewrite <- H. symmetry. apply Strings_permutation.
Qed.

Lemma Since_exceeds now t :
  (notificationMaxLifetime <? time.Since now t) = true ↔ now - t > thirtyMinutes.
Proof.
  unfold time.Since, time.Sub, notificationMaxLifetime, thirtyMinutes,
    time.Minute, time.Millisecond, time.minDuration, time.maxDuration.
  rewrite Z.ltb_lt.
  destruct (Z.ltb_spec (now - t) (- 2 ^ 63)); [lia|].
  destruct (Z.ltb_spec (2 ^ 63 - 1) (now - t)); lia.
Qed.

(** ** Renderer *)

Lemma appDisplayIcons_lookup app icon :
  appDisplayIcons !! app = Some icon → icon ∈ ["σ"; "@"; "π"].
Proof.
  intros H. apply elem_of_list_to_map_2 in H.
  repeat (apply elem_of_cons in H as [H|H]; [inversion H; subst; set_solver|]).
  by apply elem_of_nil in H.
Qed.

Lemma appDisplayIcons_nonempty app icon :
  appDisplayIcons !! app = Some icon → icon ≠ "".
Proof.
  intros H%appDisplayIcons_lookup.
  repeat (apply elem_of_cons in H as [->|H]; [discriminate|]).
  by apply elem_of_nil in H.
Qed.

(** C1: the display fragment of a source is empty for the labels "" and
    "0"; otherwise, with the icon being the source's entry of the icon
    map when it has one and the unknown glyph when it has none, the
    fragment is the icon alone for the label "1" and the icon followed
    by the label as it is for any other label. *)
Theorem notificationDisplay_spec (app : appname) (n : notification) :
  notificationDisplay app n =
    if decide (label n = "" ∨ label n = "0") then ""
    else
      let icon := match appDisplayIcons !! app with
                  | Some icon => icon
                  | None => "·"
                  end in
      if decide (label n = "1") then icon else icon ++ label n.
Proof.
  unfold notificationDisplay, map_index, fmt.Sprint2, unknownAppIcon.
  destruct (decide (label n = "" ∨ label n = "0")) as [[->| ->]|Hl]; [done..|].
  rewrite !bool_decide_eq_false_2 by tauto. cbn [orb].
  destruct (appDisplayIcons !! app) as [icon|] eqn:Hicon; cbn [default].
  - apply appDisplayIcons_nonempty in Hicon.
    rewrite (bool_decide_eq_false_2 (icon = "")) by done.
    destruct (decide (label n = "1")) as [->|H1]; [done|].
    by rewrite bool_decide_eq_false_2.
  - rewrite (bool_decide_eq_true_2 ("" = "")) by done.
    destruct (decide (label n = "1")) as [->|H1]; [done|].
    by rewrite bool_decide_eq_false_2.
Qed.

Lemma visibleNotifications_acc entries acc :
  visibleNotifications entries acc = (acc ++ spec_fragments entries)%list.
Proof.
  revert acc. induction entries as [|[app n] rest IH]; intros acc.
  - by rewrite app_nil_r.
  - cbn [visibleNotifications]. unfold spec_fragments.
    rewrite fmap_cons, filter_cons. cbn [fst snd].
    case_bool_decide as Hd.
    + rewrite decide_True by done. rewrite IH, <- app_assoc. reflexivity.
    + rewrite decide_False by (intros Hne; by apply Hne). apply IH.
Qed.

Lemma spec_fragments_proper l1 l2 :
  l1 ≡ₚ l2 → spec_fragments l1 ≡ₚ spec_fragments l2.
Proof. intros Hp. unfold spec_fragments. by rewrite Hp. Qed.

Lemma NotificationStatus_canonical range s :
  RangeOrder range →
  NotificationStatus range s =
    strings.Join (sort.Strings (spec_fragments (map_to_list (notifications s)))) " ".
Proof.
  intros Hr. unfold NotificationStatus.
  rewrite visibleNotifications_acc, app_nil_l.
  f_equal. apply Strings_proper, spec_fragments_proper, Hr.
Qed.

(** C2: [NotificationStatus] is the join by single spaces of the
    non-empty display fragments of the registry in increasing byte
    order (the empty string when there is none), and whatever the order
    in which the registry is ranged over, two calls on equal registry
    contents return the same string. *)
Theorem NotificationStatus_sorted_join (range : rangeOrder) (s : ArgosNotificationServer) :
  RangeOrder range →
  (∃ fragments : list string,
      fragments ≡ₚ spec_fragments (map_to_list (notifications s))
      ∧ Sorted String.le fragments
      ∧ NotificationStatus range s = strings.Join fragments " ")
  ∧ (spec_fragments (map_to_list (notifications s)) = [] →
       NotificationStatus range s = "")
  ∧ (∀ (range' : rangeOrder) (s' : ArgosNotificationServer),
       RangeOrder range' → notifications s' = notifications s →
       NotificationStatus range' s' = NotificationStatus range s).
Proof.
  intros Hr. split; [|split].
  - exists (sort.Strings (spec_fragments (map_to_list (notifications s)))).
    split; [apply Strings_permutation|].
    split; [apply Strings_sorted|].
    by apply NotificationStatus_canonical.
  - intros Hnil. rewrite NotificationStatus_canonical, Hnil by done. reflexivity.
  - intros range' s' Hr' Heq.
    rewrite !NotificationStatus_canonical by done. by rewrite Heq.
Qed.

(** ** Registry *)

Lemma defunctApps_acc now entries acc :
  defunctApps now entries acc =
    (acc ++ (filter (λ e : appname * notification, stale now e.2) entries).*1)%list.
Proof.
  revert acc. induction entries as [|[app n] rest IH]; intros acc.
  - by rewrite app_nil_r.
  - cbn [defunctApps]. rewrite filter_cons. cbn [snd].
    destruct (notificationMaxLifetime <? time.Since now (updatedAt n)) eqn:Hlt.
    + apply Since_exceeds in Hlt. rewrite decide_True by done.
      rewrite IH, <- app_assoc. done.
    + rewrite decide_False; [apply IH|].
      intros Hs. apply Since_exceeds in Hs. congruence.
Qed.

Lemma deleteApps_lookup apps (m : gmap appname notification) k :
  deleteApps apps m !! k = if decide (k ∈ apps) then None else m !! k.
Proof.
  revert m. induction apps as [|app rest IH]; intros m.
  - rewrite decide_False; [done|]. apply not_elem_of_nil.
  - cbn [deleteApps]. rewrite IH.
    destruct (decide (k ∈ rest)) as [Hin|Hnin].
    + rewrite decide_True; [done|]. by apply elem_of_cons; right.
    + destruct (decide (k = app)) as [->|Hne].
      * rewrite decide_True by (apply elem_of_cons; by left). apply lookup_delete_eq.
      * rewrite decide_False by (rewrite elem_of_cons; tauto).
        by apply lookup_delete_ne.
Qed.

Lemma defunctApps_elem_of now range (m : gmap appname notification) app :
  RangeOrder range →
  app ∈ defunctApps now (range m) [] ↔ ∃ n, m !! app = Some n ∧ stale now n.
Proof.
  intros Hr. rewrite defunctApps_acc, app_nil_l, list_elem_of_fmap. split.
  - intros [[a n] [-> Hin]]. apply list_elem_of_filter in Hin as [Hs Hin].
    exists n. split; [|done]. by apply (RangeOrder_elem_of range).
  - intros (n & Hl & Hs). exists (app, n). split; [done|].
    apply list_elem_of_filter. split; [done|]. by apply (RangeOrder_elem_of range).
Qed.

Lemma pruneStaleNotifications_lookup now range s app :
  RangeOrder range →
  notifications (pruneStaleNotifications now range s).1 !! app =
    match notifications s !! app with
    | Some n => if decide (stale now n) then None else Some n
    | None => None
    end.
Proof.
  intros Hr. cbn. rewrite deleteApps_lookup.
  destruct (decide (app ∈ _)) as [Hin|Hnin].
  - apply defunctApps_elem_of in Hin as (n & -> & Hs); [|done].
    by rewrite decide_True.
  - destruct (notifications s !! app) as [n|] eqn:Hl; [|done].
    destruct (decide (stale now n)) as [Hs|]; [|done].
    exfalso. apply Hnin. apply defunctApps_elem_of; eauto.
Qed.

(** C3: the eviction pass drops exactly the records whose age, the
    current time minus [updatedAt], is more than thirty minutes: such a
    record is gone afterwards, and a record of thirty minutes or less
    is still there, unchanged; nothing else in the server changes. *)
Theorem pruneStaleNotifications_spec (now : time.Time) (range : rangeOrder)
    (s : ArgosNotificationServer) :
  RangeOrder range →
  let s' := (pruneStaleNotifications now range s).1 in
  (∀ app : appname,
      notifications s' !! app =
        match notifications s !! app with
        | Some n => if decide (now - updatedAt n > 30 * 60 * 1000000000)
                    then None else Some n
        | None => None
        end)
  ∧ lastNotificationStatus s' = lastNotificationStatus s
  ∧ (Host s', Port s', ArgosHome s') = (Host s, Port s, ArgosHome s).
Proof.
  intros Hr s'. split; [|done].
  intros app. unfold s'. rewrite pruneStaleNotifications_lookup by done.
  destruct (notifications s !! app) as [n|]; [|done].
  unfold stale, thirtyMinutes. repeat case_decide; done || lia.
Qed.

Example render_two_sources :
  NotificationStatus map_to_list sampleServer = "·5 σ2"
  ∧ NotificationStatus reverseRange sampleServer = "·5 σ2".
Proof. split; vm_compute; reflexivity. Qed.

Example prune_sample :
  map_to_list (notifications (pruneStaleNotifications 1800000001001 reverseRange sampleServer).1)
  = map_to_list (delete "unknown.app" sampleRegistry)
  ∧ notifications (pruneStaleNotifications 1800000001000 reverseRange sampleServer).1 !! "unknown.app"
    = Some {| label := "5"; updatedAt := 1000 |}.
Proof. split; vm_compute; reflexivity. Qed.

Lemma NotificationStatus_sorted_join_witness :
  RangeOrder reverseRange
  ∧ NotificationStatus map_to_list sampleServer = NotificationStatus reverseRange sampleServer.
Proof.
  split; [exact RangeOrder_reverse|].
  exact (proj2 (proj2 (NotificationStatus_sorted_join reverseRange sampleServer
                         RangeOrder_reverse))
           map_to_list sampleServer RangeOrder_map_to_list eq_refl).
Defined.

Lemma pruneStaleNotifications_spec_witness :
  RangeOrder reverseRange
  ∧ lastNotificationStatus (pruneStaleNotifications sampleNow reverseRange sampleServer).1
    = lastNotificationStatus sampleServer.
Proof.
  split; [exact RangeOrder_reverse|].
  exact (proj1 (proj2 (pruneStaleNotifications_spec sampleNow reverseRange sampleServer
                         RangeOrder_reverse))).
Defined.

Lemma pruneStaleNotifications_filter now range s :
  RangeOrder range →
  notifications (pruneStaleNotifications now range s).1 =
    filter (λ e : appname * notification, ¬ stale now e.2) (notifications s).
Proof.
  intros Hr. apply map_eq. intros app.
  rewrite pruneStaleNotifications_lookup by done.
  destruct (notifications s !! app) as [n|] eqn:Hl.
  - destruct (decide (stale now n)) as [Hs|Hs]; symmetry.
    + apply map_lookup_filter_None. right. intros x Hx. cbn.
      rewrite Hl in Hx. injection Hx as <-. tauto.
    + by apply map_lookup_filter_Some.
  - symmetry. apply map_lookup_filter_None. by left.
Qed.

(** C8, as the code has it: the eviction pass has no result, so the
    number of records it removed is not reported; that number is the
    drop in the size of the registry, which is the number of records
    older than thirty minutes. *)
Theorem pruneStaleNotifications_no_count (now : time.Time) (range : rangeOrder)
    (s : ArgosNotificationServer) :
  RangeOrder range →
  pruneStaleNotifications now range s =
    (set_notifications
       (filter (λ e : appname * notification, ¬ stale now e.2) (notifications s)) s, tt)
  ∧ size (notifications s) =
      (size (notifications (pruneStaleNotifications now range s).1)
       + size (filter (λ e : appname * notification, stale now e.2) (notifications s)))%nat.
Proof.
  intros Hr. split.
  - pose proof (pruneStaleNotifications_filter now range s Hr) as Hf.
    unfold pruneStaleNotifications in *. cbn in Hf. by rewrite Hf.
  - rewrite pruneStaleNotifications_filter by done.
    rewrite <- (map_filter_union_complement
                  (λ e : appname * notification, stale now e.2) (notifications s)) at 1.
    rewrite map_size_disj_union by apply map_disjoint_filter_complement. lia.
Qed.

Lemma pruneStaleNotifications_no_count_witness :
  RangeOrder reverseRange
  ∧ size (notifications sampleServer) =
      (size (notifications (pruneStaleNotifications sampleNow reverseRange sampleServer).1)
       + size (filter (λ e : appname * notification, stale sampleNow e.2)
                 (notifications sampleServer)))%nat.
Proof.
  split; [exact RangeOrder_reverse|].
  exact (proj2 (pruneStaleNotifications_no_count sampleNow reverseRange sampleServer
                  RangeOrder_reverse)).
Defined.

(** C8 as stated fails: the result of the eviction pass does not
    determine how many records it removed.  On the sample registry the
    pass removes one record at one time and none at another, and
    returns the same (empty) result both times. *)
Lemma pruneStaleNotifications_result_is_not_a_count :
  ¬ ∃ count : unit → nat,
      ∀ (now : time.Time) (range : rangeOrder) (s : ArgosNotificationServer),
        RangeOrder range →
        count (pruneStaleNotifications now range s).2 =
          (size (notifications s)
           - size (notifications (pruneStaleNotifications now range s).1))%nat.
Proof.
  intros [count Hcount].
  pose proof (Hcount sampleNow map_to_list sampleServer RangeOrder_map_to_list) as H1.
  pose proof (Hcount 0 map_to_list sampleServer RangeOrder_map_to_list) as H0.
  cbn [snd pruneStaleNotifications] in H1, H0.
  rewrite H1 in H0. vm_compute in H0. discriminate.
Qed.

(** ** Ingress handler *)

Lemma substring_all s : substring 0 (String.length s) s = s.
Proof. induction s as [|c s IH]; cbn; [done|]. by rewrite IH. Qed.

Lemma slice_from_1 c rest : slice_from 1 (String c rest) = rest.
Proof.
  unfold slice_from. cbn [String.length substring].
  replace (S (String.length rest) - 1)%nat with (String.length rest) by lia.
  apply substring_all.
Qed.

Lemma requestURLNotificationApp_cases path :
  requestURLNotificationApp path =
    match path with
    | String a (String c rest) =>
        if decide (a = "/"%char) then (String c rest, None)
        else ("", Some "no slash prefix")
    | _ => ("", Some "no slash prefix")
    end.
Proof.
  unfold requestURLNotificationApp, len, strings.HasPrefix.
  destruct path as [|a [|c rest]]; [done| |].
  - cbn. by destruct (ascii_dec "/" a).
  - cbn [String.length Nat.ltb Nat.leb orb String.prefix].
    destruct (ascii_dec "/" a) as [<-|Hne]; cbn [negb].
    + rewrite decide_True by done. by rewrite slice_from_1.
    + by rewrite decide_False.
Qed.

(** C10: every path of two bytes or more that begins with a slash is
    accepted, and the source is all of the path after that slash,
    further slashes included (the path /a/b names the source a/b); the
    rejected paths are the lone slash and the paths that do not begin
    with a slash. *)
Theorem requestURLNotificationApp_spec (path : string) :
  (∀ source : string, source ≠ "" →
     requestURLNotificationApp ("/" ++ source) = (source, None))
  ∧ ((requestURLNotificationApp path).2 = None ↔
       (2 ≤ len path)%nat ∧ strings.HasPrefix path "/" = true)
  ∧ ((requestURLNotificationApp path).2 ≠ None ↔
       path = "/" ∨ ¬ ∃ rest : string, path = "/" ++ rest)
  ∧ requestURLNotificationApp "/a/b" = ("a/b", None).
Proof.
  split; [|split; [|split]].
  - intros [|c rest] Hne; [done|]. by rewrite requestURLNotificationApp_cases.
  - unfold requestURLNotificationApp.
    destruct (len path <? 2)%nat eqn:Hlen; cbn [orb].
    + apply Nat.ltb_lt in Hlen. cbn. split; [done|lia].
    + apply Nat.ltb_ge in Hlen.
      destruct (strings.HasPrefix path "/"); cbn; split; (done || tauto || intros [_ ?]; done).
  - rewrite requestURLNotificationApp_cases.
    destruct path as [|a [|c rest]].
    + cbn. split; [intros _; right; intros [rest Hr]; done|done].
    + cbn [snd]. split; [|done]. intros _.
      destruct (decide (a = "/"%char)) as [->|Hne]; [by left|].
      right. intros [rest Hr]. cbv [String.append] in Hr. congruence.
    + destruct (decide (a = "/"%char)) as [->|Hne]; cbn [snd].
      * split; [done|]. intros [Hp|Hn]; [done|].
        destruct Hn. by exists (String c rest).
      * split; [|done]. intros _. right. intros [r Hr]. cbv [String.append] in Hr. congruence.
  - reflexivity.
Qed.

Lemma requestURLNotificationApp_spec_witness :
  "a/b" ≠ "" ∧ requestURLNotificationApp ("/" ++ "a/b") = ("a/b", None).
Proof.
  split; [discriminate|].
  exact (proj1 (requestURLNotificationApp_spec "/a/b") "a/b" ltac:(discriminate)).
Defined.

Lemma requestURLNotificationApp_slash source :
  source ≠ "" → requestURLNotificationApp ("/" ++ source) = (source, None).
Proof.
  destruct source as [|c rest]; [done|]. intros _.
  by rewrite requestURLNotificationApp_cases.
Qed.

(** C9: the handler does not look at the request method: whatever the
    method, the request is served as the same request sent by POST.
    When its path is well formed and its body decodes, the response is
    a success, nothing is logged, and the registry has been upserted:
    the source named by the path now has the decoded label and the
    time of the request, every other source has the record it had, and
    the rest of the server is unchanged.  So a request with any method,
    the path of a non-empty source and the body of a label leaves the
    registry with that label stored for that source. *)
Theorem ServeHTTP_ignores_method (now : time.Time) (r : Request) (method : string)
    (s : ArgosNotificationServer) (w : World) :
  ServeHTTP now {| Method := method; URLPath := URLPath r; Body := Body r |} s w
  = ServeHTTP now {| Method := "POST"; URLPath := URLPath r; Body := Body r |} s w
  ∧ (∀ app Label : string,
       requestURLNotificationApp (URLPath r) = (app, None) →
       encoding_json.Decode (Body r) "" = (Label, None) →
       let res := ServeHTTP now {| Method := method; URLPath := URLPath r;
                                   Body := Body r |} s w in
       res = (updateArgosStatus now app Label s, w, StatusOK)
       ∧ res.2 = StatusOK
       ∧ res.1.2 = w
       ∧ notifications res.1.1
         = <[ app := {| label := Label; updatedAt := now |} ]> (notifications s)
       ∧ notifications res.1.1 !! app = Some {| label := Label; updatedAt := now |}
       ∧ (∀ other : appname, other ≠ app →
            notifications res.1.1 !! other = notifications s !! other)
       ∧ lastNotificationStatus res.1.1 = lastNotificationStatus s
       ∧ (Host res.1.1, Port res.1.1, ArgosHome res.1.1) = (Host s, Port s, ArgosHome s))
  ∧ (∀ source L : string,
       source ≠ "" →
       ServeHTTP now {| Method := method; URLPath := "/" ++ source;
                        Body := BodyValue (JObject [("label", JString L)]) |} s w
       = ({| Host := Host s; Port := Port s; ArgosHome := ArgosHome s;
             lastNotificationStatus := lastNotificationStatus s;
             notifications :=
               <[ source := {| label := L; updatedAt := now |} ]> (notifications s) |},
          w, StatusOK)).
Proof.
  split; [reflexivity|]. split.
  - intros app Label Hpath Hbody res.
    assert (Hres : res = (updateArgosStatus now app Label s, w, StatusOK)).
    { unfold res, ServeHTTP. cbn [URLPath Body]. by rewrite Hpath, Hbody. }
    rewrite Hres. cbn [fst snd updateArgosStatus set_notifications notifications
      lastNotificationStatus Host Port ArgosHome].
    repeat split.
    + apply lookup_insert_eq.
    + intros other Hne. by apply lookup_insert_ne.
  - intros source L Hne. unfold ServeHTTP. cbn [URLPath Body].
    rewrite (requestURLNotificationApp_slash source Hne). reflexivity.
Qed.

Lemma ServeHTTP_ignores_method_witness :
  "a/b" ≠ ""
  ∧ ServeHTTP 5 {| Method := "DELETE"; URLPath := "/a/b";
                   Body := BodyValue (JObject [("label", JString "3")]) |}
      sampleServer emptyWorld
    = ({| Host := Host sampleServer; Port := Port sampleServer;
          ArgosHome := ArgosHome sampleServer;
          lastNotificationStatus := lastNotificationStatus sampleServer;
          notifications :=
            <[ "a/b" := {| label := "3"; updatedAt := 5 |} ]> (notifications sampleServer) |},
       emptyWorld, StatusOK).
Proof.
  assert (Hne : "a/b" ≠ "") by discriminate.
  split; [exact Hne|].
  exact (proj2 (proj2 (ServeHTTP_ignores_method 5
                         {| Method := "GET"; URLPath := "/a/b";
                            Body := BodyValue (JObject [("label", JString "3")]) |}
                         "DELETE" sampleServer emptyWorld))
           "a/b" "3" Hne).
Defined.

(** A body that fails to decode is answered with 400 and the server is
    left as it was. *)
Lemma ServeHTTP_decode_error now r s w Label err :
  encoding_json.Decode (Body r) "" = (Label, Some err) →
  ∃ w', ServeHTTP now r s w = (s, w', StatusBadRequest).
Proof.
  intros Hd. unfold ServeHTTP.
  destruct (requestURLNotificationApp (URLPath r)) as [app [e|]]; [eauto|].
  rewrite Hd. eauto.
Qed.

(** An object without a member named [label] decodes without error and
    leaves the field at its zero value. *)
Lemma Decode_object_without_label members Label :
  Forall (λ kv : string * json, encoding_json.isLabelKey kv.1 = false) members →
  encoding_json.Decode (BodyValue (JObject members)) Label = (Label, None).
Proof.
  intros H. cbn. generalize (@None error).
  induction H as [|kv members Hkv _ IH]; intros e; [done|].
  cbn [fold_left]. unfold encoding_json.storeMember at 2. rewrite Hkv. apply IH.
Qed.

(** C7 fails on the code at a body that is a JSON object with no
    [label] member: the decoder reports no error for a missing field,
    so the handler upserts the source with the empty label and answers
    200, and the registry has changed. *)
Theorem ServeHTTP_accepts_body_without_label (now : time.Time)
    (s : ArgosNotificationServer) (w : World) :
  ServeHTTP now {| Method := "POST"; URLPath := "/mail.hobsons.com";
                   Body := BodyValue (JObject []) |} s w
  = (updateArgosStatus now "mail.hobsons.com" "" s, w, StatusOK)
  ∧ notifications (updateArgosStatus now "mail.hobsons.com" "" s) !! "mail.hobsons.com"
    = Some {| label := ""; updatedAt := now |}
  ∧ notifications (updateArgosStatus sampleNow "mail.hobsons.com" "" sampleServer)
    ≠ notifications sampleServer.
Proof.
  split; [reflexivity|]. split.
  - cbn. apply lookup_insert_eq.
  - intros Heq.
    apply (f_equal (λ m : gmap appname notification, m !! "mail.hobsons.com")) in Heq.
    cbn in Heq. rewrite lookup_insert_eq in Heq. vm_compute in Heq. discriminate.
Qed.

(** ** Publisher *)

Section PublisherProperties.

Variable filepath_Join : string → string → string.

Local Abbreviation write := (writeNotificationStatus filepath_Join).
Local Abbreviation cycle := (pushCycle filepath_Join).
Local Abbreviation tmpPath := (argosNotificationTempFilepath filepath_Join).

Lemma newEvents_app w w' evs :
  trace w' = (trace w ++ evs)%list → newEvents w w' = evs.
Proof. unfold newEvents. intros ->. apply drop_app_length. Qed.

Lemma writeNotificationStatus_skip range os s w :
  NotificationStatus range s = lastNotificationStatus s →
  write range os s w = (s, w, None).
Proof.
  intros Heq. unfold writeNotificationStatus.
  by rewrite bool_decide_eq_true_2.
Qed.

(** What a write attempt does, by the answers of the operating
    system. *)
Lemma writeNotificationStatus_attempt range os s w :
  NotificationStatus range s ≠ lastNotificationStatus s →
  ∃ w' evs,
    write range os s w =
      (set_lastNotificationStatus (NotificationStatus range s) s, w', firstFailure os)
    ∧ trace w' = (trace w ++ EvCreate (tmpPath s) :: evs)%list
    ∧ Forall (λ e, isFileWrite e = false ∧ isSleep e = false) evs.
Proof.
  intros Hne. unfold writeNotificationStatus, writeNotificationTempFile,
    os_Create, fmt_Fprintln, os_Rename, firstFailure.
  rewrite bool_decide_eq_false_2 by done.
  destruct os as [[ce|] [[fe partial]|] re]; cbn [createErr fprintlnErr renameErr].
  - eexists _, []. cbn. split; [reflexivity|]. split; [reflexivity|]. constructor.
  - eexists _, []. cbn. split; [reflexivity|]. split; [reflexivity|]. constructor.
  - eexists _, [_; _]. cbn. split; [reflexivity|]. cbn.
    rewrite <- !app_assoc. split; [reflexivity|]. repeat constructor.
  - destruct re as [re|]; cbn.
    + eexists _, [_; _; _]. split; [reflexivity|]. cbn.
      rewrite <- !app_assoc. split; [reflexivity|]. repeat constructor.
    + rewrite lookup_insert_eq.
      eexists _, [_; _; _]. split; [reflexivity|]. cbn.
      rewrite <- !app_assoc. split; [reflexivity|]. repeat constructor.
Qed.

Lemma pruneStaleNotifications_last now range s :
  lastNotificationStatus (pruneStaleNotifications now range s).1 = lastNotificationStatus s.
Proof. reflexivity. Qed.

Lemma pushCycle_unfold env s w :
  cycle env s w =
    let s1 := (pruneStaleNotifications (cycleNow env) (pruneRange env) s).1 in
    let r := write (statusRange env) (cycleOs env) s1 w in
    (r.1.1,
     emit (EvSleep (4700 * time.Millisecond))
       match r.2 with
       | Some err => log_Println ["error writing notification status:"; err] r.1.2
       | None => r.1.2
       end).
Proof.
  unfold pushCycle. cbn zeta.
  destruct (pruneStaleNotifications _ _ s) as [s1 []]. cbn [fst].
  by destruct (write _ _ s1 w) as [[s2 w2] [err|]].
Qed.

(** After a pass the marker is the status that pass rendered, and the
    registry is what the eviction of that pass left. *)
Lemma pushCycle_state env s w :
  let s1 := (pruneStaleNotifications (cycleNow env) (pruneRange env) s).1 in
  lastNotificationStatus (cycle env s w).1 = NotificationStatus (statusRange env) s1
  ∧ notifications (cycle env s w).1 = notifications s1.
Proof.
  intros s1. rewrite pushCycle_unfold. fold s1. cbn zeta. cbn [fst].
  destruct (decide (NotificationStatus (statusRange env) s1 = lastNotificationStatus s1))
    as [Heq|Hne].
  - by rewrite writeNotificationStatus_skip.
  - destruct (writeNotificationStatus_attempt (statusRange env) (cycleOs env) s1 w Hne)
      as (w' & evs & -> & _). done.
Qed.

(** The events of one pass: at most one attempt to write, then
    possibly a log line, then the sleep. *)
Lemma quiet_events (evs : list event) :
  Forall (λ e, isFileWrite e = false ∧ isSleep e = false) evs →
  List.filter isFileWrite evs = [] ∧ List.filter isSleep evs = [].
Proof.
  induction 1 as [|e l [He1 He2] _ [IH1 IH2]]; [done|].
  cbn. by rewrite He1, He2.
Qed.

Lemma pushCycle_events env s w :
  let s1 := (pruneStaleNotifications (cycleNow env) (pruneRange env) s).1 in
  ∃ evs,
    trace (cycle env s w).2 = (trace w ++ evs)%list
    ∧ length (List.filter isSleep evs) = 1%nat
    ∧ fileWrites evs =
        (if decide (NotificationStatus (statusRange env) s1 = lastNotificationStatus s1)
         then 0 else 1)%nat
    ∧ (NotificationStatus (statusRange env) s1 = lastNotificationStatus s1 →
         List.filter isFileCall evs = [])
    ∧ (NotificationStatus (statusRange env) s1 ≠ lastNotificationStatus s1 →
         EvCreate (tmpPath s1) ∈ evs
         ∧ ∀ err, firstFailure (cycleOs env) = Some err →
             EvLog ("error writing notification status: " ++ err) ∈ evs).
Proof.
  intros s1. rewrite pushCycle_unfold. fold s1. cbn zeta. cbn [snd].
  destruct (decide (NotificationStatus (statusRange env) s1 = lastNotificationStatus s1))
    as [Heq|Hne].
  - rewrite writeNotificationStatus_skip by done. cbn.
    exists [EvSleep (4700 * time.Millisecond)]. repeat split; try done.
  - destruct (writeNotificationStatus_attempt (statusRange env) (cycleOs env) s1 w Hne)
      as (w' & evs & -> & Htr & Hevs). cbn [fst snd].
    destruct (quiet_events _ Hevs) as [Hw Hs].
    destruct (firstFailure (cycleOs env)) as [err|] eqn:Hfail.
    + exists (EvCreate (tmpPath s1) :: evs
                ++ [EvLog ("error writing notification status: " ++ err);
                    EvSleep (4700 * time.Millisecond)]).
      split; [|split; [|split; [|split]]].
      * cbn. rewrite Htr, <- !app_assoc. reflexivity.
      * cbn. by rewrite List.filter_app, Hs.
      * unfold fileWrites. cbn. by rewrite List.filter_app, Hw.
      * done.
      * intros _. split; [apply elem_of_cons; by left|].
        intros err' [= <-]. apply elem_of_cons; right.
        apply elem_of_app; right. apply elem_of_cons; by left.
    + exists (EvCreate (tmpPath s1) :: evs ++ [EvSleep (4700 * time.Millisecond)]).
      split; [|split; [|split; [|split]]].
      * cbn. rewrite Htr, <- !app_assoc. reflexivity.
      * cbn. by rewrite List.filter_app, Hs.
      * unfold fileWrites. cbn. by rewrite List.filter_app, Hw.
      * done.
      * intros _. split; [apply elem_of_cons; by left|]. done.
Qed.

Lemma PushArgosStatus_events envs s w :
  ∃ evs,
    trace (PushArgosStatus filepath_Join envs s w).2 = (trace w ++ evs)%list
    ∧ length (List.filter isSleep evs) = length envs.
Proof.
  revert s w. induction envs as [|env rest IH]; intros s w.
  - exists []. by rewrite app_nil_r.
  - cbn [PushArgosStatus].
    destruct (pushCycle_events env s w) as (evs1 & Htr1 & Hsl1 & _).
    destruct (cycle env s w) as [s1 w1]. cbn [snd] in Htr1.
    destruct (IH s1 w1) as (evs2 & Htr2 & Hsl2).
    exists (evs1 ++ evs2)%list. split.
    + by rewrite Htr2, Htr1, app_assoc.
    + rewrite List.filter_app, length_app, Hsl1, Hsl2. done.
Qed.

Lemma serveAll_lastNotificationStatus reqs s w :
  lastNotificationStatus (serveAll reqs s w).1 = lastNotificationStatus s.
Proof.
  revert s w. induction reqs as [|[now r] rest IH]; intros s w; [done|].
  cbn [serveAll]. unfold ServeHTTP.
  destruct (requestURLNotificationApp (URLPath r)) as [app [err|]]; [apply IH|].
  destruct (encoding_json.Decode (Body r) "") as [Label [err|]]; [apply IH|].
  by rewrite IH.
Qed.

(** C4: when the rendered status is the last written one the write step
    writes no file and changes nothing; hence, when the registry is the
    same at the second of two consecutive passes of the publisher as it
    was at the first, the second pass makes no file call and the two
    passes together attempt at most one write. *)
Theorem writeNotificationStatus_idempotent (env1 env2 : cycleEnv)
    (s : ArgosNotificationServer) (w : World) :
  RangeOrder (statusRange env1) → RangeOrder (statusRange env2) →
  let c1 := cycle env1 s w in
  let c2 := cycle env2 c1.1 c1.2 in
  (∀ (range : rangeOrder) (os : osAnswers) (s0 : ArgosNotificationServer) (w0 : World),
      NotificationStatus range s0 = lastNotificationStatus s0 →
      write range os s0 w0 = (s0, w0, None))
  ∧ (notifications c2.1 = notifications c1.1 →
       List.filter isFileCall (newEvents c1.2 c2.2) = []
       ∧ lastNotificationStatus c2.1 = lastNotificationStatus c1.1
       ∧ (fileWrites (newEvents w c2.2) ≤ 1)%nat).
Proof.
  intros Hr1 Hr2 c1 c2. split; [apply writeNotificationStatus_skip|].
  intros Hsame.
  destruct (pushCycle_state env1 s w) as [Hlast1 Hreg1].
  destruct (pushCycle_state env2 c1.1 c1.2) as [Hlast2 Hreg2].
  destruct (pushCycle_events env1 s w) as (evs1 & Htr1 & _ & Hw1 & _).
  destruct (pushCycle_events env2 c1.1 c1.2) as (evs2 & Htr2 & _ & Hw2 & Hquiet & _).
  fold c1 in Hlast1, Hreg1, Htr1. fold c2 in Hlast2, Hreg2, Htr2.
  set (s1 := (pruneStaleNotifications (cycleNow env1) (pruneRange env1) s).1) in *.
  set (s2 := (pruneStaleNotifications (cycleNow env2) (pruneRange env2) c1.1).1) in *.
  assert (Hskip : NotificationStatus (statusRange env2) s2 = lastNotificationStatus s2).
  { unfold s2 at 2. rewrite pruneStaleNotifications_last, Hlast1.
    rewrite !NotificationStatus_canonical by done. congruence. }
  split; [|split].
  - rewrite (newEvents_app _ _ _ Htr2). by apply Hquiet.
  - rewrite Hlast2, Hskip. apply pruneStaleNotifications_last.
  - rewrite (newEvents_app w c2.2 (evs1 ++ evs2)) by (by rewrite Htr2, Htr1, app_assoc).
    unfold fileWrites in *. rewrite List.filter_app, length_app, Hw1, Hw2.
    rewrite (decide_True _ _ Hskip). destruct (decide _); lia.
Qed.

(** The fragments are never empty and begin with one of the four
    glyphs. *)
Lemma prefix_append p s t :
  String.prefix p s = true → String.prefix p (s ++ t) = true.
Proof.
  revert s. induction p as [|a p IH]; intros s H.
  - by destruct (s ++ t).
  - destruct s as [|b s]; [done|].
    change (String b s ++ t) with (String b (s ++ t)). cbn in *.
    destruct (ascii_dec a b); [by apply IH|done].
Qed.

Lemma prefix_refl p : String.prefix p p = true.
Proof. induction p as [|a p IH]; cbn; [done|]. by destruct (ascii_dec a a). Qed.

Lemma appIcon_glyph app :
  (if bool_decide (map_index appDisplayIcons app = "") then unknownAppIcon
   else map_index appDisplayIcons app) ∈ ["σ"; "@"; "π"; "·"].
Proof.
  unfold map_index. destruct (appDisplayIcons !! app) as [i|] eqn:Hi; cbn [default].
  - pose proof (appDisplayIcons_nonempty _ _ Hi).
    rewrite bool_decide_eq_false_2 by done.
    apply appDisplayIcons_lookup in Hi. rewrite !elem_of_cons in *. tauto.
  - rewrite bool_decide_eq_true_2 by done. rewrite !elem_of_cons. tauto.
Qed.

Lemma notificationDisplay_glyph app n :
  notificationDisplay app n = ""
  ∨ ∃ icon, icon ∈ ["σ"; "@"; "π"; "·"]
            ∧ strings.HasPrefix (notificationDisplay app n) icon = true.
Proof.
  unfold notificationDisplay, fmt.Sprint2, strings.HasPrefix.
  destruct (_ || _); [by left|right]. cbn zeta.
  eexists. split; [apply (appIcon_glyph app)|].
  destruct (bool_decide (label n = "1")); [apply prefix_refl|apply prefix_append, prefix_refl].
Qed.

Lemma NotificationStatus_glyph range s :
  NotificationStatus range s = ""
  ∨ ∃ icon, icon ∈ ["σ"; "@"; "π"; "·"]
            ∧ strings.HasPrefix (NotificationStatus range s) icon = true.
Proof.
  unfold NotificationStatus. rewrite visibleNotifications_acc, app_nil_l.
  destruct (sort.Strings _) as [|f rest] eqn:Hsort; [by left|right].
  assert (Hf : f ∈ spec_fragments (range (notifications s))).
  { rewrite <- (Strings_permutation (spec_fragments _)), Hsort.
    apply elem_of_cons; by left. }
  unfold spec_fragments in Hf. apply list_elem_of_filter in Hf as [Hne Hf].
  apply list_elem_of_fmap in Hf as ([app n] & -> & _). cbn [fst snd] in *.
  destruct (notificationDisplay_glyph app n) as [?|(icon & Hicon & Hpre)]; [done|].
  exists icon. split; [done|]. unfold strings.HasPrefix in *.
  cbn [strings.Join]. destruct rest; [done|]. by apply prefix_append.
Qed.

Lemma NotificationStatus_possible range s :
  NotificationStatus range s ≠ impossibleNotificationStatus.
Proof.
  intros Heq.
  destruct (NotificationStatus_glyph range s) as [He|(icon & Hicon & Hpre)].
  - rewrite He in Heq. discriminate.
  - rewrite Heq in Hpre.
    repeat (apply elem_of_cons in Hicon as [->|Hicon]; [discriminate|]).
    by apply elem_of_nil in Hicon.
Qed.

Lemma init_ok s0 s :
  init s0 = (s, None) →
  notifications s = ∅ ∧ lastNotificationStatus s = impossibleNotificationStatus.
Proof.
  unfold init. repeat case_bool_decide; intros [= <-]; done.
Qed.

(** C5: the marker the server starts with, a lone dash, is no status
    [NotificationStatus] can return: a status is empty or begins with
    one of the four glyphs, and the empty registry renders as the empty
    string.  So the first pass of the publisher attempts a write,
    whether or not requests have filled the registry before it. *)
Theorem impossibleNotificationStatus_never_rendered (range : rangeOrder)
    (s : ArgosNotificationServer) :
  NotificationStatus range s ≠ impossibleNotificationStatus
  ∧ (NotificationStatus range s = ""
     ∨ ∃ icon : string,
         icon ∈ ["σ"; "@"; "π"; "·"]
         ∧ strings.HasPrefix (NotificationStatus range s) icon = true)
  ∧ (RangeOrder range → notifications s = ∅ → NotificationStatus range s = "")
  ∧ (∀ (s0 sInit : ArgosNotificationServer) (reqs : list (time.Time * Request))
       (env : cycleEnv) (w : World),
       init s0 = (sInit, None) →
       let sw := serveAll reqs sInit w in
       lastNotificationStatus sInit = impossibleNotificationStatus
       ∧ fileWrites (newEvents sw.2 (cycle env sw.1 sw.2).2) = 1%nat
       ∧ ∃ tmp : string, EvCreate tmp ∈ newEvents sw.2 (cycle env sw.1 sw.2).2).
Proof.
  split; [apply NotificationStatus_possible|].
  split; [apply NotificationStatus_glyph|]. split.
  - intros Hr Hempty. rewrite NotificationStatus_canonical, Hempty by done.
    by rewrite map_to_list_empty.
  - intros s0 sInit reqs env w Hinit sw.
    apply init_ok in Hinit as [_ Hlast]. split; [done|].
    destruct (pushCycle_events env sw.1 sw.2) as (evs & Htr & _ & Hw & _ & Hattempt).
    set (s1 := (pruneStaleNotifications (cycleNow env) (pruneRange env) sw.1).1) in *.
    assert (Hne : NotificationStatus (statusRange env) s1 ≠ lastNotificationStatus s1).
    { unfold s1 at 2. rewrite pruneStaleNotifications_last. unfold sw.
      rewrite serveAll_lastNotificationStatus, Hlast.
      apply NotificationStatus_possible. }
    rewrite (newEvents_app _ _ _ Htr). split.
    + by rewrite Hw, decide_False.
    + exists (tmpPath s1). by apply Hattempt.
Qed.

(** C6: when the rendered status differs from the marker, the write
    step sets the marker to the new status whatever becomes of the
    write: if a call of the write fails, its error is returned and the
    marker holds the new status all the same, so that later passes skip
    the write for as long as the registry renders to that status.  The
    caller logs the error and the loop goes on: every pass runs to its
    sleep. *)
Theorem writeNotificationStatus_marks_before_write (range : rangeOrder) (os : osAnswers)
    (s : ArgosNotificationServer) (w : World) :
  NotificationStatus range s ≠ lastNotificationStatus s →
  let r := write range os s w in
  lastNotificationStatus r.1.1 = NotificationStatus range s
  ∧ notifications r.1.1 = notifications s
  ∧ r.2 = firstFailure os
  ∧ EvCreate (tmpPath s) ∈ newEvents w r.1.2
  ∧ (∀ (range' : rangeOrder) (os' : osAnswers) (s' : ArgosNotificationServer) (w' : World),
       lastNotificationStatus s' = lastNotificationStatus r.1.1 →
       NotificationStatus range' s' = NotificationStatus range s →
       write range' os' s' w' = (s', w', None))
  ∧ (∀ (env : cycleEnv) (s0 : ArgosNotificationServer) (w0 : World) (err : error),
       let s1 := (pruneStaleNotifications (cycleNow env) (pruneRange env) s0).1 in
       NotificationStatus (statusRange env) s1 ≠ lastNotificationStatus s1 →
       firstFailure (cycleOs env) = Some err →
       EvLog ("error writing notification status: " ++ err)
         ∈ newEvents w0 (cycle env s0 w0).2
       ∧ lastNotificationStatus (cycle env s0 w0).1 = NotificationStatus (statusRange env) s1)
  ∧ (∀ (envs : list cycleEnv) (s0 : ArgosNotificationServer) (w0 : World),
       length (List.filter isSleep
                 (newEvents w0 (PushArgosStatus filepath_Join envs s0 w0).2))
       = length envs).
Proof.
  intros Hne r.
  destruct (writeNotificationStatus_attempt range os s w Hne) as (w' & evs & Hr & Htr & _).
  unfold r. rewrite Hr. cbn [fst snd set_lastNotificationStatus
    lastNotificationStatus notifications].
  split; [done|]. split; [done|]. split; [done|]. split; [|split; [|split]].
  - rewrite (newEvents_app _ _ _ Htr). apply elem_of_cons; by left.
  - intros range' os' s' w'' Hlast Hsame.
    apply writeNotificationStatus_skip. congruence.
  - intros env s0 w0 err Hne1 Hfail.
    destruct (pushCycle_events env s0 w0) as (evs1 & Htr1 & _ & _ & _ & Hattempt).
    rewrite (newEvents_app _ _ _ Htr1). split.
    + by apply Hattempt.
    + apply pushCycle_state.
  - intros envs s0 w0.
    destruct (PushArgosStatus_events envs s0 w0) as (evs1 & Htr1 & Hsl).
    by rewrite (newEvents_app _ _ _ Htr1).
Qed.

End PublisherProperties.

Lemma writeNotificationStatus_idempotent_witness :
  let c1 := pushCycle sampleJoin sampleEnv sampleServer emptyWorld in
  let c2 := pushCycle sampleJoin sampleEnv c1.1 c1.2 in
  RangeOrder (statusRange sampleEnv)
  ∧ notifications c2.1 = notifications c1.1
  ∧ (fileWrites (newEvents emptyWorld c2.2) ≤ 1)%nat.
Proof.
  intros c1 c2.
  assert (Hsame : notifications c2.1 = notifications c1.1) by (vm_compute; reflexivity).
  split; [exact RangeOrder_reverse|]. split; [exact Hsame|].
  exact (proj2 (proj2 (proj2 (writeNotificationStatus_idempotent sampleJoin
                                sampleEnv sampleEnv sampleServer emptyWorld
                                RangeOrder_reverse RangeOrder_reverse) Hsame))).
Defined.

Lemma impossibleNotificationStatus_never_rendered_witness :
  init sampleConfig = ((init sampleConfig).1, None)
  ∧ fileWrites (newEvents emptyWorld
                  (pushCycle sampleJoin sampleEnv (init sampleConfig).1 emptyWorld).2) = 1%nat.
Proof.
  split; [reflexivity|].
  exact (proj1 (proj2 (proj2 (proj2 (proj2 (impossibleNotificationStatus_never_rendered
                                sampleJoin map_to_list sampleServer)))
                  sampleConfig (init sampleConfig).1 [] sampleEnv emptyWorld eq_refl))).
Defined.

Lemma writeNotificationStatus_marks_before_write_witness :
  let r := writeNotificationStatus sampleJoin map_to_list diskFull sampleServer emptyWorld in
  NotificationStatus map_to_list sampleServer ≠ lastNotificationStatus sampleServer
  ∧ lastNotificationStatus r.1.1 = NotificationStatus map_to_list sampleServer
  ∧ r.2 = firstFailure diskFull.
Proof.
  intros r.
  assert (Hne : NotificationStatus map_to_list sampleServer
                ≠ lastNotificationStatus sampleServer) by (vm_compute; discriminate).
  split; [exact Hne|].
  pose proof (writeNotificationStatus_marks_before_write sampleJoin map_to_list diskFull
                sampleServer emptyWorld Hne) as H.
  exact (conj (proj1 H) (proj1 (proj2 (proj2 H)))).
Defined.

(** ** Runs of the sample states *)

Example decode_samples :
  encoding_json.Decode (BodyValue (JObject [("label", JString "3")])) "" = ("3", None)
  ∧ encoding_json.Decode (BodyValue (JObject [("Label", JString "3")])) "" = ("3", None)
  ∧ encoding_json.Decode (BodyValue (JObject [("other", JNumber "1")])) "" = ("", None)
  ∧ encoding_json.Decode (BodyValue (JObject [("label", JNull)])) "" = ("", None)
  ∧ (encoding_json.Decode (BodyValue (JObject [("label", JNumber "3")])) "").2 ≠ None
  ∧ (encoding_json.Decode (BodyValue (JArray [])) "").2 ≠ None
  ∧ (encoding_json.Decode (BodyError "EOF") "").2 ≠ None.
Proof. repeat split; done. Qed.

(** The end-to-end scenarios of the specification. *)
Example scenarios :
  let post path lbl s :=
    (ServeHTTP 7 {| Method := "POST"; URLPath := path;
                    Body := BodyValue (JObject [("label", JString lbl)]) |}
       s emptyWorld).1.1 in
  let s0 := (init sampleConfig).1 in
  NotificationStatus map_to_list (post "/mail.hobsons.com" "3" s0) = "σ3"
  ∧ NotificationStatus map_to_list (post "/hangouts.google.com" "1" s0) = "π"
  ∧ NotificationStatus map_to_list
      (post "/mail.hobsons.com" "0" (post "/mail.hobsons.com" "3" s0)) = ""
  ∧ NotificationStatus map_to_list
      (post "/mail.hobsons.com" "2" (post "/unknown.app" "5" s0)) = "·5 σ2"
  ∧ (ServeHTTP 7 {| Method := "POST"; URLPath := "/"; Body := BodyValue JNull |}
       s0 emptyWorld).1.1 = s0.
Proof. repeat split; vm_compute; reflexivity. Qed.

(** A pass on a full disk, then two passes on a working one: the first
    attempt fails and is logged; the second pass renders the same
    status and does not try again; by the third pass a record has
    turned stale, the status has changed, and the file is written. *)
Example failed_write_not_retried :
  let pass now os := {| cycleNow := now; pruneRange := map_to_list;
                        statusRange := map_to_list; cycleOs := os |} in
  let c1 := pushCycle sampleJoin (pass 10 diskFull) sampleServer emptyWorld in
  let c2 := pushCycle sampleJoin (pass 4700000010 osAllFine) c1.1 c1.2 in
  let c3 := pushCycle sampleJoin (pass sampleNow osAllFine) c2.1 c2.2 in
  trace c1.2 =
    [ EvCreate "/home/u/.config/argos/.notifications.tmp";
      EvFprintln "/home/u/.config/argos/.notifications.tmp" ("·5 σ2" ++ newline);
      EvClose "/home/u/.config/argos/.notifications.tmp";
      EvLog "error writing notification status: no space left on device";
      EvSleep 4700000000 ]
  ∧ lastNotificationStatus c1.1 = "·5 σ2"
  ∧ files c1.2 !! "/home/u/.config/argos/.notifications" = None
  ∧ newEvents c1.2 c2.2 = [ EvSleep 4700000000 ]
  ∧ files c2.2 !! "/home/u/.config/argos/.notifications" = None
  ∧ newEvents c2.2 c3.2 =
      [ EvCreate "/home/u/.config/argos/.notifications.tmp";
        EvFprintln "/home/u/.config/argos/.notifications.tmp" ("σ2" ++ newline);
        EvClose "/home/u/.config/argos/.notifications.tmp";
        EvRename "/home/u/.config/argos/.notifications.tmp"
          "/home/u/.config/argos/.notifications";
        EvSleep 4700000000 ]
  ∧ files c3.2 !! "/home/u/.config/argos/.notifications" = Some ("σ2" ++ newline).
Proof. repeat split; vm_compute; reflexivity. Qed.

(** * Further properties of the code *)

(** ** Construction and configuration *)

Lemma prefix_iff_append p s :
  String.prefix p s = true ↔ ∃ rest, s = p ++ rest.
Proof.
  revert s. induction p as [|a p IH]; intros s.
  - split; [intros _; by exists s|intros _; by destruct s].
  - destruct s as [|b s].
    + split; [done|]. intros [rest Hr]. discriminate.
    + cbn [String.prefix]. destruct (ascii_dec a b) as [->|Hne].
      * rewrite IH. split; intros [rest Hr]; exists rest.
        -- change (String b p ++ rest) with (String b (p ++ rest)). by rewrite Hr.
        -- change (String b p ++ rest) with (String b (p ++ rest)) in Hr. congruence.
      * split; [done|]. intros [rest Hr].
        change (String a p ++ rest) with (String a (p ++ rest)) in Hr. congruence.
Qed.

Lemma slice_from_append p rest : slice_from (String.length p) (p ++ rest) = rest.
Proof.
  unfold slice_from. induction p as [|a p IH].
  - change ("" ++ rest) with rest. cbn [String.length].
    rewrite Nat.sub_0_r. apply substring_all.
  - change (String a p ++ rest) with (String a (p ++ rest)).
    cbn [String.length substring]. apply IH.
Qed.

(** X1: what the start-up code gets from the constructor when it passes
    the three options host, port and home: a zero port is refused first,
    an empty home next; otherwise the server has the given port and
    home, the host (localhost when none was given), an empty registry
    and the impossible status as its marker. *)
Theorem NewArgosNotificationServer_outcome (host : string) (port : Z) (home : string) :
  let r := NewArgosNotificationServer
             [ServerHost host; ServerPort port; ArgosHomeOption home] in
  (port = 0 → r.2 = Some "server port not set")
  ∧ (port ≠ 0 → home = "" → r.2 = Some "Argos home directory not set")
  ∧ (port ≠ 0 → home ≠ "" →
       r = ({| Host := if decide (host = "") then "localhost" else host;
               Port := port; ArgosHome := home;
               lastNotificationStatus := "-"; notifications := ∅ |}, None))
  ∧ (r.2 = None ↔ port ≠ 0 ∧ home ≠ "").
Proof.
  intros r. unfold r, NewArgosNotificationServer, init. cbn.
  destruct (decide (port = 0)) as [->|Hp].
  { cbn. repeat split; try done. intros [? _]; done. }
  rewrite (bool_decide_eq_false_2 (port = 0)) by done.
  destruct (decide (home = "")) as [->|Hh].
  { cbn. repeat split; try done. intros [_ ?]; done. }
  rewrite (bool_decide_eq_false_2 (home = "")) by done.
  split; [done|]. split; [done|]. split; [|done].
  intros _ _. destruct (decide (host = "")) as [->|Hhost]; [done|].
  by rewrite bool_decide_eq_false_2.
Qed.

Lemma NewArgosNotificationServer_outcome_witness :
  18989 ≠ 0 ∧ "/home/u/.config/argos" ≠ ""
  ∧ NewArgosNotificationServer
      [ServerHost ""; ServerPort 18989; ArgosHomeOption "/home/u/.config/argos"]
    = ({| Host := "localhost"; Port := 18989; ArgosHome := "/home/u/.config/argos";
          lastNotificationStatus := "-"; notifications := ∅ |}, None).
Proof.
  split; [discriminate|]. split; [discriminate|].
  exact (proj1 (proj2 (proj2 (NewArgosNotificationServer_outcome
                                "" 18989 "/home/u/.config/argos")))
           ltac:(discriminate) ltac:(discriminate)).
Defined.

(** X2: the listen address is the host, a colon and the port in decimal;
    for a given host, different ports give different addresses. *)
Theorem ListenAddr_port_inj (s1 s2 : ArgosNotificationServer) :
  Host s1 = Host s2 → ListenAddr s1 = ListenAddr s2 → Port s1 = Port s2.
Proof.
  unfold ListenAddr. intros -> Heq.
  apply (inj (String.app (Host s2))) in Heq.
  apply (inj (String.app ":")) in Heq.
  by apply (inj pretty) in Heq.
Qed.

Lemma ListenAddr_port_inj_witness :
  ListenAddr sampleServer = "localhost:18989"
  ∧ Port (set_lastNotificationStatus "" sampleServer) = Port sampleServer.
Proof.
  split; [vm_compute; reflexivity|].
  exact (ListenAddr_port_inj (set_lastNotificationStatus "" sampleServer) sampleServer
           eq_refl eq_refl).
Defined.

(** X3: [expandHomeDir] replaces a leading tilde-slash by the home
    directory of the current user, joined with the rest of the path,
    and panics when that directory cannot be found; every other path,
    a lone tilde or a tilde followed by a user name among them, is
    returned as it is, and the user is not even looked up. *)
Theorem expandHomeDir_spec (filepath_Join : string → string → string)
    (currentUserHomeDir : option string) (path : string) :
  (∀ rest : string, path = "~/" ++ rest →
     expandHomeDir filepath_Join currentUserHomeDir path =
       (λ home, filepath_Join home rest) <$> currentUserHomeDir)
  ∧ ((¬ ∃ rest : string, path = "~/" ++ rest) →
       expandHomeDir filepath_Join currentUserHomeDir path = Some path)
  ∧ expandHomeDir filepath_Join None "~" = Some "~"
  ∧ expandHomeDir filepath_Join None "~bob/argos" = Some "~bob/argos".
Proof.
  unfold expandHomeDir, strings.HasPrefix. split; [|split; [|done]].
  - intros rest ->.
    assert (String.prefix "~/" ("~/" ++ rest) = true) as ->
      by (apply prefix_iff_append; eauto).
    cbn [negb]. pose proof (slice_from_append "~/" rest) as Hs.
    cbn [String.length] in Hs. rewrite Hs.
    by destruct currentUserHomeDir.
  - intros Hno. destruct (String.prefix "~/" path) eqn:Hp; [|done].
    apply prefix_iff_append in Hp. contradiction.
Qed.

Lemma expandHomeDir_spec_witness :
  "~/.config/argos" = "~/" ++ ".config/argos"
  ∧ expandHomeDir sampleJoin (Some "/home/u") "~/.config/argos"
    = Some "/home/u/.config/argos".
Proof.
  split; [reflexivity|].
  exact (proj1 (expandHomeDir_spec sampleJoin (Some "/home/u") "~/.config/argos")
           ".config/argos" eq_refl).
Defined.

(** ** Ingress handler and upsert *)

Lemma requestURLNotificationApp_accepts path app :
  requestURLNotificationApp path = (app, None) → app ≠ "" ∧ path = "/" ++ app.
Proof.
  rewrite requestURLNotificationApp_cases.
  destruct path as [|a [|c rest]]; [done..|].
  destruct (decide (a = "/"%char)) as [->|]; [|done].
  intros [= <-]. done.
Qed.

Lemma requestURLNotificationApp_rejects path app err :
  requestURLNotificationApp path = (app, Some err) → err = "no slash prefix".
Proof.
  rewrite requestURLNotificationApp_cases.
  destruct path as [|a [|c rest]]; [by intros [= _ <-]..|].
  destruct (decide (a = "/"%char)); [done|]. by intros [= _ <-].
Qed.

(** X4: the handler has two outcomes.  Either it answers 400, having
    changed neither the server nor any file and having logged one line;
    or it answers 200, having logged nothing, and the server is the
    upsert of the source named by the path (which is not empty) with
    the decoded label.  The path is checked before the body: a bad path
    is what the log line reports, whatever the body. *)
Theorem ServeHTTP_outcome (now : time.Time) (r : Request)
    (s : ArgosNotificationServer) (w : World) :
  let res := ServeHTTP now r s w in
  ((res.2 = StatusBadRequest ∧ res.1.1 = s ∧ files res.1.2 = files w
    ∧ ∃ line : string, trace res.1.2 = (trace w ++ [EvLog line])%list)
   ∨ (res.2 = StatusOK ∧ res.1.2 = w
      ∧ ∃ app Label : string,
          app ≠ "" ∧ URLPath r = "/" ++ app
          ∧ encoding_json.Decode (Body r) "" = (Label, None)
          ∧ res.1.1 = updateArgosStatus now app Label s))
  ∧ ((requestURLNotificationApp (URLPath r)).2 ≠ None →
       res = (s, emit (EvLog ("Request to invalid path " ++ URLPath r
                               ++ " : no slash prefix")) w,
              StatusBadRequest)).
Proof.
  intros res. unfold res, ServeHTTP.
  destruct (requestURLNotificationApp (URLPath r)) as [app [err|]] eqn:Hpath.
  - apply requestURLNotificationApp_rejects in Hpath as ->. split.
    + left. cbn. eauto.
    + intros _. unfold log_Println, fmt.Sprintln. cbn [strings.Join].
      reflexivity.
  - split; [|done].
    apply requestURLNotificationApp_accepts in Hpath as [Hne Hp].
    destruct (encoding_json.Decode (Body r) "") as [Label [err|]] eqn:Hd.
    + left. cbn. eauto.
    + right. cbn. split; [done|]. split; [done|]. by exists app, Label.
Qed.

(** X5: the last write wins.  When a request is accepted, the server it
    leaves is the same whether or not another request for the same path
    was served just before it: the registry is the one before both
    requests with the record of the source replaced by the label decoded
    from the later request and the time of the later request. *)
Theorem ServeHTTP_last_write_wins (now1 now2 : time.Time) (r1 r2 : Request)
    (s : ArgosNotificationServer) (w : World) :
  URLPath r1 = URLPath r2 →
  (ServeHTTP now2 r2 s w).2 = StatusOK →
  let after1 := ServeHTTP now1 r1 s w in
  let after2 := ServeHTTP now2 r2 after1.1.1 after1.1.2 in
  after2.1.1 = (ServeHTTP now2 r2 s w).1.1
  ∧ after2.2 = StatusOK
  ∧ ∃ app Label : string,
      URLPath r2 = "/" ++ app
      ∧ encoding_json.Decode (Body r2) "" = (Label, None)
      ∧ notifications after2.1.1
        = <[ app := {| label := Label; updatedAt := now2 |} ]> (notifications s)
      ∧ notifications after2.1.1 !! app = Some {| label := Label; updatedAt := now2 |}.
Proof.
  intros Hpath Hok after1 after2. unfold after2, after1, ServeHTTP in *.
  rewrite Hpath.
  destruct (requestURLNotificationApp (URLPath r2)) as [app [err|]] eqn:Hp2; [done|].
  destruct (encoding_json.Decode (Body r2) "") as [Label2 [err|]]; [done|].
  apply requestURLNotificationApp_accepts in Hp2 as [_ Hp2].
  destruct (encoding_json.Decode (Body r1) "") as [Label1 [err|]]; cbn.
  - split; [done|]. split; [done|]. exists app, Label2.
    split; [done|]. split; [done|]. split; [done|]. apply lookup_insert_eq.
  - split.
    + unfold updateArgosStatus, set_notifications. cbn. by rewrite insert_insert_eq.
    + split; [done|]. exists app, Label2.
      split; [done|]. split; [done|]. split; [apply insert_insert_eq|].
      apply lookup_insert_eq.
Qed.

Lemma ServeHTTP_last_write_wins_witness :
  let post lbl := {| Method := "POST"; URLPath := "/mail.hobsons.com";
                     Body := BodyValue (JObject [("label", JString lbl)]) |} in
  let after1 := ServeHTTP 8 (post "3") sampleServer emptyWorld in
  let after2 := ServeHTTP 9 (post "4") after1.1.1 after1.1.2 in
  (ServeHTTP 9 (post "4") sampleServer emptyWorld).2 = StatusOK
  ∧ after2.1.1 = (ServeHTTP 9 (post "4") sampleServer emptyWorld).1.1
  ∧ notifications after2.1.1
    = <[ "mail.hobsons.com" := {| label := "4"; updatedAt := 9 |} ]>
        (notifications sampleServer).
Proof.
  intros post after1 after2. split; [reflexivity|].
  destruct (ServeHTTP_last_write_wins 8 9 (post "3") (post "4")
              sampleServer emptyWorld eq_refl eq_refl)
    as (Hsame & _ & app & Label & Hpath & Hbody & Hreg & _).
  split; [exact Hsame|].
  cbv [String.append post URLPath] in Hpath. injection Hpath as Happ. subst app.
  vm_compute in Hbody. injection Hbody as HLabel. subst Label. exact Hreg.
Defined.

Lemma ServeHTTP_preserves now r s w :
  let res := ServeHTTP now r s w in
  lastNotificationStatus res.1.1 = lastNotificationStatus s
  ∧ (Host res.1.1, Port res.1.1, ArgosHome res.1.1) = (Host s, Port s, ArgosHome s)
  ∧ files res.1.2 = files w
  ∧ dom (notifications s) ⊆ dom (notifications res.1.1)
  ∧ ∀ app, URLPath r ≠ "/" ++ app →
      notifications res.1.1 !! app = notifications s !! app.
Proof.
  intros res. unfold res, ServeHTTP.
  destruct (requestURLNotificationApp (URLPath r)) as [app [err|]] eqn:Hpath; [done|].
  destruct (encoding_json.Decode (Body r) "") as [Label [err|]]; [done|].
  apply requestURLNotificationApp_accepts in Hpath as [_ Hp]. cbn.
  repeat split.
  - rewrite dom_insert. set_solver.
  - intros app' Hne. apply lookup_insert_ne. congruence.
Qed.

(** X6: serving requests never removes a source, never changes the
    record of a source no request names, and touches neither the
    marker of the publisher, nor the configuration, nor any file. *)
Theorem serveAll_preserves (reqs : list (time.Time * Request))
    (s : ArgosNotificationServer) (w : World) :
  let res := serveAll reqs s w in
  lastNotificationStatus res.1 = lastNotificationStatus s
  ∧ (Host res.1, Port res.1, ArgosHome res.1) = (Host s, Port s, ArgosHome s)
  ∧ files res.2 = files w
  ∧ dom (notifications s) ⊆ dom (notifications res.1)
  ∧ ∀ app : appname,
      (∀ nr, nr ∈ reqs → URLPath nr.2 ≠ "/" ++ app) →
      notifications res.1 !! app = notifications s !! app.
Proof.
  revert s w. induction reqs as [|[now r] rest IH]; intros s w; [done|].
  cbn [serveAll].
  pose proof (ServeHTTP_preserves now r s w) as (H1 & H2 & H3 & H4 & H5).
  destruct (ServeHTTP now r s w) as [[s1 w1] code]. cbn [fst snd] in *.
  destruct (IH s1 w1) as (I1 & I2 & I3 & I4 & I5). cbn zeta.
  split; [congruence|]. split; [congruence|]. split; [congruence|].
  split; [by etrans|].
  intros app Hall. rewrite I5, H5; [done| |].
  - apply (Hall (now, r)). apply elem_of_cons; by left.
  - intros nr Hin. apply Hall. apply elem_of_cons; by right.
Qed.

Lemma serveAll_preserves_witness :
  let reqs := [(5, {| Method := "POST"; URLPath := "/mail.hobsons.com";
                      Body := BodyValue (JObject [("label", JString "9")]) |})] in
  (∀ nr, nr ∈ reqs → URLPath nr.2 ≠ "/" ++ "unknown.app")
  ∧ notifications (serveAll reqs sampleServer emptyWorld).1 !! "unknown.app"
    = notifications sampleServer !! "unknown.app".
Proof.
  intros reqs.
  assert (Hall : ∀ nr, nr ∈ reqs → URLPath nr.2 ≠ "/" ++ "unknown.app").
  { intros nr Hin. apply elem_of_cons in Hin as [->|Hin]; [discriminate|].
    by apply elem_of_nil in Hin. }
  split; [exact Hall|].
  exact (proj2 (proj2 (proj2 (proj2 (serveAll_preserves reqs sampleServer emptyWorld))))
           "unknown.app" Hall).
Defined.

(** ** Renderer *)

Lemma append_nonempty a b : a ≠ "" → a ++ b ≠ "".
Proof. by destruct a. Qed.

Lemma appIcon_nonempty app :
  (if bool_decide (map_index appDisplayIcons app = "") then unknownAppIcon
   else map_index appDisplayIcons app) ≠ "".
Proof. case_bool_decide; [discriminate|done]. Qed.

Lemma notificationDisplay_suppressed app n :
  label n = "" ∨ label n = "0" → notificationDisplay app n = "".
Proof. unfold notificationDisplay. intros [-> | ->]; reflexivity. Qed.

Lemma notificationDisplay_visible app n :
  ¬ (label n = "" ∨ label n = "0") → notificationDisplay app n ≠ "".
Proof.
  unfold notificationDisplay, fmt.Sprint2. intros Hl.
  rewrite !bool_decide_eq_false_2 by tauto. cbn [orb]. cbn zeta.
  pose proof (appIcon_nonempty app) as Hne.
  destruct (bool_decide (label n = "1")); [done|]. by apply append_nonempty.
Qed.

(** X7: a record is suppressed exactly when its label is empty or the
    digit zero: for every other label the fragment is not empty,
    whatever the source. *)
Theorem notificationDisplay_empty_iff (app : appname) (n : notification) :
  notificationDisplay app n = "" ↔ label n = "" ∨ label n = "0".
Proof.
  split; [|apply notificationDisplay_suppressed].
  intros Hd. destruct (decide (label n = "" ∨ label n = "0")) as [|Hl]; [done|].
  by apply (notificationDisplay_visible app) in Hl.
Qed.

Lemma Join_empty l sep : Forall (λ e, e ≠ "") l → strings.Join l sep = "" → l = [].
Proof.
  destruct 1 as [|e l He Hl]; [done|]. cbn [strings.Join].
  destruct l; [done|]. intros Hj. by apply append_nonempty in Hj.
Qed.

Lemma spec_fragments_nonempty entries : Forall (λ e, e ≠ "") (spec_fragments entries).
Proof.
  apply Forall_forall. intros d Hd. unfold spec_fragments in Hd.
  by apply list_elem_of_filter in Hd as [? _].
Qed.

Lemma spec_fragments_cons app n rest :
  spec_fragments ((app, n) :: rest) =
    if decide (label n = "" ∨ label n = "0") then spec_fragments rest
    else notificationDisplay app n :: spec_fragments rest.
Proof.
  unfold spec_fragments. rewrite fmap_cons, filter_cons. cbn [fst snd].
  destruct (decide (label n = "" ∨ label n = "0")) as [Hs|Hs].
  - apply (notificationDisplay_suppressed app) in Hs.
    rewrite decide_False; [done|]. intros Hne. by apply Hne.
  - apply (notificationDisplay_visible app) in Hs. by rewrite decide_True.
Qed.

Lemma spec_fragments_nil entries :
  Forall (λ e : appname * notification, label e.2 = "" ∨ label e.2 = "0") entries →
  spec_fragments entries = [].
Proof.
  induction 1 as [|[app n] rest He _ IH]; [done|].
  rewrite spec_fragments_cons. by rewrite decide_True.
Qed.

(** X8: the status is the empty string exactly when every record of the
    registry is suppressed. *)
Theorem NotificationStatus_empty_iff (range : rangeOrder) (s : ArgosNotificationServer) :
  RangeOrder range →
  NotificationStatus range s = ""
  ↔ ∀ (app : appname) (n : notification),
      notifications s !! app = Some n → label n = "" ∨ label n = "0".
Proof.
  intros Hr. rewrite NotificationStatus_canonical by done. split.
  - intros Hj app n Hl.
    destruct (decide (label n = "" ∨ label n = "0")) as [|Hvis]; [done|]. exfalso.
    apply (notificationDisplay_visible app) in Hvis as Hne.
    apply Join_empty in Hj.
    + apply Strings_nil_inv in Hj.
      assert (notificationDisplay app n ∈ spec_fragments (map_to_list (notifications s)))
        as Hin; [|rewrite Hj in Hin; by apply elem_of_nil in Hin].
      apply list_elem_of_filter. split; [done|].
      apply list_elem_of_fmap. exists (app, n). split; [done|].
      by apply elem_of_map_to_list.
    + rewrite Strings_permutation. apply spec_fragments_nonempty.
  - intros Hall. rewrite spec_fragments_nil; [done|].
    apply Forall_forall. intros [app n] Hin. cbn.
    apply elem_of_map_to_list in Hin. eauto.
Qed.

Lemma NotificationStatus_empty_iff_witness :
  RangeOrder reverseRange
  ∧ (NotificationStatus reverseRange (set_notifications ∅ sampleServer) = ""
     ↔ ∀ (app : appname) (n : notification),
         notifications (set_notifications ∅ sampleServer) !! app = Some n →
         label n = "" ∨ label n = "0").
Proof.
  split; [exact RangeOrder_reverse|].
  exact (NotificationStatus_empty_iff reverseRange (set_notifications ∅ sampleServer)
           RangeOrder_reverse).
Defined.

Lemma notificationDisplay_label app n t :
  notificationDisplay app n = notificationDisplay app {| label := label n; updatedAt := t |}.
Proof. reflexivity. Qed.

Lemma spec_fragments_labels (m : gmap appname notification) :
  spec_fragments (map_to_list m) =
    filter (λ d, d ≠ "")
      ((λ e : appname * string,
          notificationDisplay e.1 {| label := e.2; updatedAt := 0 |})
       <$> map_to_list (label <$> m)).
Proof.
  unfold spec_fragments. rewrite map_to_list_fmap, <- list_fmap_compose.
  f_equal.
Qed.

(** X9: the status depends on the labels only: two registries with the
    same sources and labels render to the same status, whatever the
    times of their records.  So an upsert that repeats the label a
    source already has changes nothing in the status. *)
Theorem NotificationStatus_labels_only (range1 range2 : rangeOrder)
    (s1 s2 : ArgosNotificationServer) :
  RangeOrder range1 → RangeOrder range2 →
  label <$> notifications s1 = label <$> notifications s2 →
  NotificationStatus range1 s1 = NotificationStatus range2 s2
  ∧ ∀ (now : time.Time) (app : appname) (n : notification),
      notifications s2 !! app = Some n →
      NotificationStatus range1 (updateArgosStatus now app (label n) s2)
      = NotificationStatus range2 s2.
Proof.
  intros Hr1 Hr2 Heq.
  assert (Hgen : ∀ sa sb, label <$> notifications sa = label <$> notifications sb →
            NotificationStatus range1 sa = NotificationStatus range2 sb).
  { intros sa sb Hl. rewrite !NotificationStatus_canonical by done.
    by rewrite !spec_fragments_labels, Hl. }
  split; [by apply Hgen|].
  intros now app n Hl. apply Hgen. cbn.
  rewrite fmap_insert. cbn. apply insert_id. by rewrite lookup_fmap, Hl.
Qed.

Lemma NotificationStatus_labels_only_witness :
  RangeOrder reverseRange ∧ RangeOrder (map_to_list : rangeOrder)
  ∧ NotificationStatus reverseRange (updateArgosStatus sampleNow "unknown.app" "5" sampleServer)
    = NotificationStatus map_to_list sampleServer.
Proof.
  split; [exact RangeOrder_reverse|]. split; [exact RangeOrder_map_to_list|].
  exact (proj2 (NotificationStatus_labels_only reverseRange map_to_list
                  sampleServer sampleServer RangeOrder_reverse RangeOrder_map_to_list
                  eq_refl)
           sampleNow "unknown.app" {| label := "5"; updatedAt := 1000 |} eq_refl).
Defined.

(** X10: reporting the label zero, or the empty label, for a source
    renders as if the source had been removed from the registry. *)
Theorem NotificationStatus_suppressed_upsert (range1 range2 : rangeOrder)
    (now : time.Time) (app Label : string) (s : ArgosNotificationServer) :
  RangeOrder range1 → RangeOrder range2 →
  Label = "" ∨ Label = "0" →
  NotificationStatus range1 (updateArgosStatus now app Label s)
  = NotificationStatus range2 (set_notifications (delete app (notifications s)) s).
Proof.
  intros Hr1 Hr2 Hl. rewrite !NotificationStatus_canonical by done. cbn.
  f_equal. apply Strings_proper.
  rewrite <- insert_delete_eq.
  rewrite (spec_fragments_proper _ _
             (map_to_list_insert (delete app (notifications s)) app _
                (lookup_delete_eq _ _))).
  rewrite spec_fragments_cons. cbn [label]. by rewrite decide_True.
Qed.

Lemma NotificationStatus_suppressed_upsert_witness :
  RangeOrder reverseRange ∧ RangeOrder (map_to_list : rangeOrder) ∧ ("0" = "" ∨ "0" = "0")
  ∧ NotificationStatus reverseRange (updateArgosStatus 7 "unknown.app" "0" sampleServer)
    = NotificationStatus map_to_list
        (set_notifications (delete "unknown.app" (notifications sampleServer)) sampleServer).
Proof.
  split; [exact RangeOrder_reverse|]. split; [exact RangeOrder_map_to_list|].
  split; [by right|].
  exact (NotificationStatus_suppressed_upsert reverseRange map_to_list 7 "unknown.app" "0"
           sampleServer RangeOrder_reverse RangeOrder_map_to_list (or_intror eq_refl)).
Defined.

(** ** Eviction *)

Lemma set_notifications_id s : set_notifications (notifications s) s = s.
Proof. by destruct s. Qed.

Lemma pruneStaleNotifications_eq now range s :
  RangeOrder range →
  (pruneStaleNotifications now range s).1 =
    set_notifications
      (filter (λ e : appname * notification, ¬ stale now e.2) (notifications s)) s.
Proof.
  intros Hr. pose proof (pruneStaleNotifications_filter now range s Hr) as Hf.
  unfold pruneStaleNotifications in *. cbn in *. by rewrite Hf.
Qed.

(** X11: after the eviction pass every record left is thirty minutes old
    or younger, and each is a record the registry had before; a registry
    without a stale record is left exactly as it was. *)
Theorem pruneStaleNotifications_fresh (now : time.Time) (range : rangeOrder)
    (s : ArgosNotificationServer) :
  RangeOrder range →
  let s' := (pruneStaleNotifications now range s).1 in
  map_Forall (λ _ n, now - updatedAt n ≤ 30 * 60 * 1000000000) (notifications s')
  ∧ notifications s' ⊆ notifications s
  ∧ (map_Forall (λ _ n, now - updatedAt n ≤ 30 * 60 * 1000000000) (notifications s) →
       s' = s).
Proof.
  intros Hr s'. unfold s'. rewrite pruneStaleNotifications_eq by done. cbn.
  split; [|split].
  - intros app n Hl. apply map_lookup_filter_Some in Hl as [_ Hs].
    unfold stale, thirtyMinutes in Hs. cbn in Hs. lia.
  - apply map_filter_subseteq.
  - intros Hall. rewrite map_filter_id; [apply set_notifications_id|].
    intros app n Hl. specialize (Hall app n Hl).
    unfold stale, thirtyMinutes. cbn in *. lia.
Qed.

Lemma pruneStaleNotifications_fresh_witness :
  RangeOrder reverseRange
  ∧ notifications (pruneStaleNotifications sampleNow reverseRange sampleServer).1
    ⊆ notifications sampleServer.
Proof.
  split; [exact RangeOrder_reverse|].
  exact (proj1 (proj2 (pruneStaleNotifications_fresh sampleNow reverseRange sampleServer
                         RangeOrder_reverse))).
Defined.

(** X12: eviction passes compose: a pass at some time followed by a pass
    at the same or a later time leaves the server the later pass alone
    would leave; in particular a pass repeated at the same time changes
    nothing more. *)
Theorem pruneStaleNotifications_compose (now1 now2 : time.Time)
    (range1 range2 range3 : rangeOrder) (s : ArgosNotificationServer) :
  RangeOrder range1 → RangeOrder range2 → RangeOrder range3 →
  now1 ≤ now2 →
  (pruneStaleNotifications now2 range2 (pruneStaleNotifications now1 range1 s).1).1
  = (pruneStaleNotifications now2 range3 s).1.
Proof.
  intros Hr1 Hr2 Hr3 Hle. rewrite !pruneStaleNotifications_eq by done.
  unfold set_notifications. cbn. f_equal.
  rewrite map_filter_filter. apply map_filter_ext.
  intros app n _. unfold stale. cbn. lia.
Qed.

Lemma pruneStaleNotifications_compose_witness :
  RangeOrder reverseRange ∧ RangeOrder (map_to_list : rangeOrder) ∧ 5 ≤ sampleNow
  ∧ (pruneStaleNotifications sampleNow map_to_list
       (pruneStaleNotifications 5 reverseRange sampleServer).1).1
    = (pruneStaleNotifications sampleNow reverseRange sampleServer).1.
Proof.
  split; [exact RangeOrder_reverse|]. split; [exact RangeOrder_map_to_list|].
  split; [discriminate|].
  exact (pruneStaleNotifications_compose 5 sampleNow reverseRange map_to_list reverseRange
           sampleServer RangeOrder_reverse RangeOrder_map_to_list RangeOrder_reverse
           ltac:(discriminate)).
Defined.

(** X13: a report is kept for thirty minutes: the record an upsert wrote
    at one time is still there, as written, after an eviction pass at
    most thirty minutes later, and is gone after any later pass. *)
Theorem updateArgosStatus_then_prune (now now' : time.Time) (range : rangeOrder)
    (app Label : string) (s : ArgosNotificationServer) :
  RangeOrder range →
  notifications
    (pruneStaleNotifications now' range (updateArgosStatus now app Label s)).1 !! app
  = if decide (now' - now > 30 * 60 * 1000000000) then None
    else Some {| label := Label; updatedAt := now |}.
Proof.
  intros Hr. rewrite pruneStaleNotifications_lookup by done. cbn.
  rewrite lookup_insert_eq. unfold stale, thirtyMinutes. cbn.
  repeat case_decide; done || lia.
Qed.

Lemma updateArgosStatus_then_prune_witness :
  RangeOrder reverseRange
  ∧ notifications
      (pruneStaleNotifications 1800000000000 reverseRange
         (updateArgosStatus 0 "a/b" "3" sampleServer)).1 !! "a/b"
    = Some {| label := "3"; updatedAt := 0 |}.
Proof.
  split; [exact RangeOrder_reverse|].
  exact (updateArgosStatus_then_prune 0 1800000000000 reverseRange "a/b" "3" sampleServer
           RangeOrder_reverse).
Defined.

(** ** Publisher: the status file *)

Section StatusFile.

Variable filepath_Join : string → string → string.

Local Abbreviation write := (writeNotificationStatus filepath_Join).
Local Abbreviation cycle := (pushCycle filepath_Join).
Local Abbreviation tmpPath := (argosNotificationTempFilepath filepath_Join).
Local Abbreviation finalPath := (argosNotificationFilepath filepath_Join).

(** The files after an attempt to write, by the first call that fails. *)
Lemma writeNotificationStatus_files range os s w :
  NotificationStatus range s ≠ lastNotificationStatus s →
  let status := NotificationStatus range s in
  files (write range os s w).1.2 =
    match createErr os, fprintlnErr os, renameErr os with
    | Some _, _, _ => files w
    | None, Some (_, partial), _ => <[tmpPath s := partial]> (<[tmpPath s := ""]> (files w))
    | None, None, Some _ =>
        <[tmpPath s := status ++ newline]> (<[tmpPath s := ""]> (files w))
    | None, None, None =>
        <[finalPath s := status ++ newline]>
          (delete (tmpPath s)
             (<[tmpPath s := status ++ newline]> (<[tmpPath s := ""]> (files w))))
    end.
Proof.
  intros Hne status. unfold writeNotificationStatus, writeNotificationTempFile,
    os_Create, fmt_Fprintln, os_Rename.
  rewrite bool_decide_eq_false_2 by done.
  destruct os as [[ce|] [[fe partial]|] [re|]]; cbn; try reflexivity.
  by rewrite lookup_insert_eq.
Qed.

(** X14: the status file is replaced whole or not at all.  When the
    status has changed and the temporary file is not the status file
    itself, an attempt without error leaves the status file holding the
    new status and a line feed and no temporary file; an attempt with
    an error, a partial write included, leaves the status file as it
    was.  No other file is touched. *)
Theorem writeNotificationStatus_atomic (range : rangeOrder) (os : osAnswers)
    (s : ArgosNotificationServer) (w : World) :
  NotificationStatus range s ≠ lastNotificationStatus s →
  tmpPath s ≠ finalPath s →
  let r := write range os s w in
  (r.2 = None →
     files r.1.2 !! finalPath s = Some (NotificationStatus range s ++ newline)
     ∧ files r.1.2 !! tmpPath s = None)
  ∧ (r.2 ≠ None → files r.1.2 !! finalPath s = files w !! finalPath s)
  ∧ (∀ path : string, path ≠ tmpPath s → path ≠ finalPath s →
       files r.1.2 !! path = files w !! path).
Proof.
  intros Hne Hpaths r.
  pose proof (writeNotificationStatus_files range os s w Hne) as Hfiles.
  destruct (writeNotificationStatus_attempt filepath_Join range os s w Hne)
    as (w' & evs & Hr & _).
  unfold r. rewrite Hr in *. cbn [fst snd] in *. cbn zeta in Hfiles. rewrite Hfiles.
  unfold firstFailure.
  destruct os as [[ce|] [[fe partial]|] [re|]]; cbn [createErr fprintlnErr renameErr];
    (split; [|split]); try done.
  all: try (intros _; by rewrite !lookup_insert_ne by done).
  all: try (intros path Hp1 Hp2; by rewrite ?lookup_insert_ne, ?lookup_delete_ne,
              ?lookup_insert_ne by done).
  intros _. split.
  - apply lookup_insert_eq.
  - rewrite lookup_insert_ne by done. apply lookup_delete_eq.
Qed.

Lemma deleteApps_subseteq apps (m : gmap appname notification) : deleteApps apps m ⊆ m.
Proof.
  revert m. induction apps as [|app rest IH]; intros m; [done|].
  cbn [deleteApps]. etrans; [apply IH|apply delete_subseteq].
Qed.

Lemma pushCycle_config env s w :
  (Host (cycle env s w).1, Port (cycle env s w).1, ArgosHome (cycle env s w).1)
  = (Host s, Port s, ArgosHome s)
  ∧ notifications (cycle env s w).1 ⊆ notifications s.
Proof.
  rewrite pushCycle_unfold. cbn zeta. cbn [fst].
  set (s1 := (pruneStaleNotifications (cycleNow env) (pruneRange env) s).1).
  assert (Hs1 : (Host s1, Port s1, ArgosHome s1) = (Host s, Port s, ArgosHome s)
                ∧ notifications s1 ⊆ notifications s).
  { split; [done|]. apply deleteApps_subseteq. }
  destruct (decide (NotificationStatus (statusRange env) s1 = lastNotificationStatus s1))
    as [Heq|Hne].
  - by rewrite writeNotificationStatus_skip.
  - destruct (writeNotificationStatus_attempt filepath_Join (statusRange env)
                (cycleOs env) s1 w Hne) as (w' & evs & -> & _). done.
Qed.

Local Abbreviation inSync := (inSync filepath_Join).

Lemma pushCycle_inSync env s w :
  firstFailure (cycleOs env) = None →
  tmpPath s ≠ finalPath s →
  inSync s w ∨ lastNotificationStatus s = impossibleNotificationStatus →
  inSync (cycle env s w).1 (cycle env s w).2.
Proof.
  intros Hfine Hpaths Hpre. unfold inSync. rewrite pushCycle_unfold. cbn zeta.
  set (s1 := (pruneStaleNotifications (cycleNow env) (pruneRange env) s).1).
  change (finalPath s) with (finalPath s1) in *.
  change (tmpPath s) with (tmpPath s1) in *.
  change (lastNotificationStatus s) with (lastNotificationStatus s1) in Hpre.
  destruct (decide (NotificationStatus (statusRange env) s1 = lastNotificationStatus s1))
    as [Heq|Hne].
  - rewrite writeNotificationStatus_skip by done. cbn.
    destruct Hpre as [Hsync|Hlast]; [exact Hsync|].
    rewrite Hlast in Heq. by apply (NotificationStatus_possible filepath_Join) in Heq.
  - pose proof (writeNotificationStatus_files (statusRange env) (cycleOs env) s1 w Hne)
      as Hfiles.
    destruct (writeNotificationStatus_attempt filepath_Join (statusRange env)
                (cycleOs env) s1 w Hne) as (w' & evs & Hr & _).
    rewrite Hr in *. cbn [fst snd] in *. rewrite Hfine. cbn.
    cbn zeta in Hfiles. rewrite Hfiles. unfold firstFailure in Hfine.
    destruct (cycleOs env) as [[ce|] [[fe partial]|] [re|]]; try done. cbn.
    apply lookup_insert_eq.
Qed.

(** X15: while the operating system reports no error the status file
    keeps up with the publisher: started from the initial marker, after
    one pass or more the status file holds the marker, which is the
    last status rendered, and a line feed. *)
Theorem PushArgosStatus_file_in_sync (envs : list cycleEnv)
    (s : ArgosNotificationServer) (w : World) :
  envs ≠ [] →
  Forall (λ env, firstFailure (cycleOs env) = None) envs →
  lastNotificationStatus s = impossibleNotificationStatus →
  tmpPath s ≠ finalPath s →
  let r := PushArgosStatus filepath_Join envs s w in
  files r.2 !! finalPath s = Some (lastNotificationStatus r.1 ++ newline).
Proof.
  intros Hne Hfine Hlast Hpaths r.
  assert (Hgen : ∀ envs s w,
            Forall (λ env, firstFailure (cycleOs env) = None) envs →
            tmpPath s ≠ finalPath s → inSync s w →
            inSync (PushArgosStatus filepath_Join envs s w).1
              (PushArgosStatus filepath_Join envs s w).2
            ∧ ArgosHome (PushArgosStatus filepath_Join envs s w).1 = ArgosHome s).
  { clear. induction envs as [|env rest IH]; intros s w Hfine Hpaths Hsync; [done|].
    apply Forall_cons in Hfine as [Hfine1 Hfine].
    cbn [PushArgosStatus].
    pose proof (pushCycle_inSync env s w Hfine1 Hpaths (or_introl Hsync)) as Hsync1.
    pose proof (pushCycle_config env s w) as [[= _ _ Hhome] _].
    destruct (cycle env s w) as [s1 w1]. cbn [fst snd] in *.
    assert (tmpPath s1 ≠ finalPath s1) as Hpaths1.
    { unfold argosNotificationTempFilepath, argosNotificationFilepath in *.
      by rewrite Hhome. }
    destruct (IH s1 w1 Hfine Hpaths1 Hsync1) as [H1 H2].
    split; [done|congruence]. }
  unfold r. destruct envs as [|env rest]; [done|].
  apply Forall_cons in Hfine as [Hfine1 Hfine].
  cbn [PushArgosStatus].
  pose proof (pushCycle_inSync env s w Hfine1 Hpaths (or_intror Hlast)) as Hsync1.
  pose proof (pushCycle_config env s w) as [[= _ _ Hhome] _].
  destruct (cycle env s w) as [s1 w1]. cbn [fst snd] in *.
  assert (tmpPath s1 ≠ finalPath s1) as Hpaths1.
  { unfold argosNotificationTempFilepath, argosNotificationFilepath in *.
    by rewrite Hhome. }
  destruct (Hgen rest s1 w1 Hfine Hpaths1 Hsync1) as [Hsync Hhome'].
  unfold inSync, argosNotificationFilepath in *. by rewrite <- Hhome, <- Hhome'.
Qed.

(** X16: every pass attempts at most one write, so any number of passes
    attempts at most that many; the publisher never adds a record to
    the registry and never changes the configuration. *)
Theorem PushArgosStatus_bounds (envs : list cycleEnv)
    (s : ArgosNotificationServer) (w : World) :
  let r := PushArgosStatus filepath_Join envs s w in
  (fileWrites (newEvents w r.2) ≤ length envs)%nat
  ∧ notifications r.1 ⊆ notifications s
  ∧ (Host r.1, Port r.1, ArgosHome r.1) = (Host s, Port s, ArgosHome s).
Proof.
  intros r.
  assert (Hgen : ∀ envs s w,
            (∃ evs, trace (PushArgosStatus filepath_Join envs s w).2 = (trace w ++ evs)%list
                    ∧ (fileWrites evs ≤ length envs)%nat)
            ∧ notifications (PushArgosStatus filepath_Join envs s w).1 ⊆ notifications s
            ∧ (Host (PushArgosStatus filepath_Join envs s w).1,
               Port (PushArgosStatus filepath_Join envs s w).1,
               ArgosHome (PushArgosStatus filepath_Join envs s w).1)
              = (Host s, Port s, ArgosHome s)).
  { clear. induction envs as [|env rest IH]; intros s w.
    - cbn. split; [|done]. exists []. by rewrite app_nil_r.
    - cbn [PushArgosStatus].
      destruct (pushCycle_events filepath_Join env s w) as (evs1 & Htr1 & _ & Hw1 & _).
      pose proof (pushCycle_config env s w) as [Hcfg Hsub].
      destruct (cycle env s w) as [s1 w1]. cbn [fst snd] in *.
      destruct (IH s1 w1) as ((evs2 & Htr2 & Hw2) & Hsub2 & Hcfg2).
      split; [|split].
      + exists (evs1 ++ evs2)%list. split; [by rewrite Htr2, Htr1, app_assoc|].
        unfold fileWrites in *. rewrite List.filter_app, length_app, Hw1.
        cbn [length]. destruct (decide _); lia.
      + by etrans.
      + congruence. }
  destruct (Hgen envs s w) as ((evs & Htr & Hw) & Hsub & Hcfg).
  unfold r. by rewrite (newEvents_app _ _ _ Htr).
Qed.

Lemma pruneStaleNotifications_noop now range s :
  RangeOrder range →
  map_Forall (λ _ n, now - updatedAt n ≤ thirtyMinutes) (notifications s) →
  (pruneStaleNotifications now range s).1 = s.
Proof.
  intros Hr Hall. rewrite pruneStaleNotifications_eq by done.
  rewrite map_filter_id; [apply set_notifications_id|].
  intros app n Hl. specialize (Hall app n Hl). unfold stale. cbn in *. lia.
Qed.

(** X17: an idle publisher writes at most once.  Over any number of
    passes during which no record of the registry turns stale, the
    registry stays as it is and the status file is written at most
    once, and not at all when the marker already is the status. *)
Theorem PushArgosStatus_idle (envs : list cycleEnv) (range : rangeOrder)
    (s : ArgosNotificationServer) (w : World) :
  RangeOrder range →
  Forall (λ env, RangeOrder (pruneRange env) ∧ RangeOrder (statusRange env)
                 ∧ map_Forall (λ _ n, cycleNow env - updatedAt n ≤ 30 * 60 * 1000000000)
                     (notifications s)) envs →
  let r := PushArgosStatus filepath_Join envs s w in
  notifications r.1 = notifications s
  ∧ (fileWrites (newEvents w r.2) ≤ 1)%nat
  ∧ (NotificationStatus range s = lastNotificationStatus s →
       fileWrites (newEvents w r.2) = 0%nat ∧ r.1 = s).
Proof.
  intros Hrange Hall r.
  assert (Hgen : ∀ envs s w,
            Forall (λ env, RangeOrder (pruneRange env) ∧ RangeOrder (statusRange env)
                           ∧ map_Forall (λ _ n, cycleNow env - updatedAt n ≤ thirtyMinutes)
                               (notifications s)) envs →
            notifications (PushArgosStatus filepath_Join envs s w).1 = notifications s
            ∧ ∃ evs, trace (PushArgosStatus filepath_Join envs s w).2 = (trace w ++ evs)%list
                ∧ (fileWrites evs ≤ 1)%nat
                ∧ (NotificationStatus range s = lastNotificationStatus s →
                     fileWrites evs = 0%nat
                     ∧ (PushArgosStatus filepath_Join envs s w).1 = s)).
  { clear - Hrange. induction envs as [|env rest IH]; intros s w Hall.
    - cbn. split; [done|]. exists []. rewrite app_nil_r. split; [done|].
      split; [cbn; lia|done].
    - apply Forall_cons in Hall as [(Hrp & Hrs & Hfresh) Hall].
      cbn [PushArgosStatus].
      destruct (pushCycle_events filepath_Join env s w) as (evs1 & Htr1 & _ & Hw1 & _).
      destruct (pushCycle_state filepath_Join env s w) as [Hlast1 Hreg1].
      pose proof (pushCycle_config env s w) as [Hcfg _].
      rewrite (pruneStaleNotifications_noop _ _ _ Hrp Hfresh) in Hw1, Hlast1, Hreg1.
      destruct (cycle env s w) as [s1 w1]. cbn [fst snd] in *.
      rewrite <- Hreg1 in Hall.
      destruct (IH s1 w1 Hall) as (Hreg2 & evs2 & Htr2 & _ & Hidle).
      assert (Hsynced : NotificationStatus range s1 = lastNotificationStatus s1).
      { rewrite Hlast1, !NotificationStatus_canonical by done. by rewrite Hreg1. }
      destruct (Hidle Hsynced) as [Hw2 Hs2].
      split; [congruence|].
      exists (evs1 ++ evs2)%list. split; [by rewrite Htr2, Htr1, app_assoc|].
      unfold fileWrites in *. rewrite List.filter_app, length_app, Hw1, Hw2.
      split; [destruct (decide _); lia|].
      intros Hsync.
      assert (NotificationStatus (statusRange env) s = lastNotificationStatus s) as Heq.
      { rewrite <- Hsync, !NotificationStatus_canonical by done. done. }
      rewrite (decide_True _ _ Heq). split; [done|].
      rewrite Hs2. destruct s, s1. cbn in *. congruence. }
  destruct (Hgen envs s w Hall) as (Hreg & evs & Htr & Hw & Hidle).
  unfold r. rewrite (newEvents_app _ _ _ Htr). done.
Qed.

End StatusFile.

Lemma writeNotificationStatus_atomic_witness :
  let r := writeNotificationStatus sampleJoin map_to_list diskFull sampleServer emptyWorld in
  NotificationStatus map_to_list sampleServer ≠ lastNotificationStatus sampleServer
  ∧ argosNotificationTempFilepath sampleJoin sampleServer
    ≠ argosNotificationFilepath sampleJoin sampleServer
  ∧ (r.2 ≠ None →
       files r.1.2 !! argosNotificationFilepath sampleJoin sampleServer
       = files emptyWorld !! argosNotificationFilepath sampleJoin sampleServer).
Proof.
  intros r.
  assert (Hne : NotificationStatus map_to_list sampleServer
                ≠ lastNotificationStatus sampleServer) by (vm_compute; discriminate).
  assert (Hp : argosNotificationTempFilepath sampleJoin sampleServer
               ≠ argosNotificationFilepath sampleJoin sampleServer)
    by (vm_compute; discriminate).
  split; [exact Hne|]. split; [exact Hp|].
  exact (proj1 (proj2 (writeNotificationStatus_atomic sampleJoin map_to_list diskFull
                         sampleServer emptyWorld Hne Hp))).
Defined.

Lemma PushArgosStatus_file_in_sync_witness :
  let r := PushArgosStatus sampleJoin [sampleEnv; sampleEnv] sampleServer emptyWorld in
  [sampleEnv; sampleEnv] ≠ []
  ∧ Forall (λ env, firstFailure (cycleOs env) = None) [sampleEnv; sampleEnv]
  ∧ lastNotificationStatus sampleServer = impossibleNotificationStatus
  ∧ argosNotificationTempFilepath sampleJoin sampleServer
    ≠ argosNotificationFilepath sampleJoin sampleServer
  ∧ files r.2 !! argosNotificationFilepath sampleJoin sampleServer
    = Some (lastNotificationStatus r.1 ++ newline).
Proof.
  intros r.
  assert (H1 : [sampleEnv; sampleEnv] ≠ []) by discriminate.
  assert (H2 : Forall (λ env, firstFailure (cycleOs env) = None) [sampleEnv; sampleEnv])
    by (repeat constructor).
  assert (H3 : argosNotificationTempFilepath sampleJoin sampleServer
               ≠ argosNotificationFilepath sampleJoin sampleServer)
    by (vm_compute; discriminate).
  split; [exact H1|]. split; [exact H2|]. split; [reflexivity|]. split; [exact H3|].
  exact (PushArgosStatus_file_in_sync sampleJoin [sampleEnv; sampleEnv]
           sampleServer emptyWorld H1 H2 eq_refl H3).
Defined.

Lemma PushArgosStatus_idle_witness :
  let r := PushArgosStatus sampleJoin [quietEnv; quietEnv; quietEnv]
             sampleServer emptyWorld in
  RangeOrder reverseRange
  ∧ Forall (λ env, RangeOrder (pruneRange env) ∧ RangeOrder (statusRange env)
                   ∧ map_Forall (λ _ n, cycleNow env - updatedAt n ≤ 30 * 60 * 1000000000)
                       (notifications sampleServer))
      [quietEnv; quietEnv; quietEnv]
  ∧ (fileWrites (newEvents emptyWorld r.2) ≤ 1)%nat.
Proof.
  intros r.
  assert (Hq : RangeOrder (pruneRange quietEnv) ∧ RangeOrder (statusRange quietEnv)
               ∧ map_Forall (λ _ n, cycleNow quietEnv - updatedAt n ≤ 30 * 60 * 1000000000)
                   (notifications sampleServer)).
  { split; [exact RangeOrder_map_to_list|]. split; [exact RangeOrder_reverse|].
    intros app n Hl. unfold sampleServer, sampleRegistry in Hl. cbn [notifications] in Hl.
    apply elem_of_list_to_map_2 in Hl.
    repeat (apply elem_of_cons in Hl as [[= -> ->]|Hl]; [cbn; lia|]).
    by apply elem_of_nil in Hl. }
  assert (Hall : Forall (λ env, RangeOrder (pruneRange env) ∧ RangeOrder (statusRange env)
                   ∧ map_Forall (λ _ n, cycleNow env - updatedAt n ≤ 30 * 60 * 1000000000)
                       (notifications sampleServer))
                   [quietEnv; quietEnv; quietEnv])
    by (repeat (apply List.Forall_cons; [exact Hq|]); apply List.Forall_nil).
  split; [exact RangeOrder_reverse|]. split; [exact Hall|].
  exact (proj1 (proj2 (PushArgosStatus_idle sampleJoin [quietEnv; quietEnv; quietEnv]
                         reverseRange sampleServer emptyWorld RangeOrder_reverse Hall))).
Defined.

(** Three passes on a full disk while nothing turns stale: one attempt,
    logged, and two silent passes. *)
Example idle_passes_on_a_full_disk :
  let r := PushArgosStatus sampleJoin [quietEnv; quietEnv; quietEnv]
             sampleServer emptyWorld in
  fileWrites (trace r.2) = 1%nat
  ∧ List.filter isSleep (trace r.2) = [EvSleep 4700000000; EvSleep 4700000000; EvSleep 4700000000]
  ∧ files r.2 !! "/home/u/.config/argos/.notifications" = None
  ∧ lastNotificationStatus r.1 = "·5 σ2".
Proof. repeat split; vm_compute; reflexivity. Qed.

(** ** Renderer: small registries and distinct icons *)

Lemma Strings_pair a b :
  sort.Strings [a; b] = if decide (String.le a b) then [a; b] else [b; a].
Proof.
  symmetry. apply Strings_unique.
  - destruct (decide (String.le a b)) as [Hle|Hnle].
    + repeat constructor. exact Hle.
    + repeat constructor. by destruct (total String.le a b).
  - destruct (decide (String.le a b)); [done|apply Permutation_swap].
Qed.

(** X18: a registry of one source renders as the fragment of that
    source; a registry of two sources, both visible, renders as their
    two fragments with one space between, the smaller in byte order
    first. *)
Theorem NotificationStatus_one_or_two (range : rangeOrder) (s : ArgosNotificationServer)
    (app1 app2 : appname) (n1 n2 : notification) :
  RangeOrder range →
  (notifications s = {[ app1 := n1 ]} →
     NotificationStatus range s = notificationDisplay app1 n1)
  ∧ (app1 ≠ app2 → notifications s = <[ app2 := n2 ]> {[ app1 := n1 ]} →
     ¬ (label n1 = "" ∨ label n1 = "0") → ¬ (label n2 = "" ∨ label n2 = "0") →
     NotificationStatus range s =
       if decide (String.le (notificationDisplay app1 n1) (notificationDisplay app2 n2))
       then notificationDisplay app1 n1 ++ " " ++ notificationDisplay app2 n2
       else notificationDisplay app2 n2 ++ " " ++ notificationDisplay app1 n1).
Proof.
  intros Hr. split.
  - intros Hreg. rewrite NotificationStatus_canonical, Hreg, map_to_list_singleton by done.
    rewrite spec_fragments_cons.
    destruct (decide (label n1 = "" ∨ label n1 = "0")) as [Hs|Hs].
    + by rewrite (notificationDisplay_suppressed app1 n1 Hs).
    + reflexivity.
  - intros Hne Hreg Hv1 Hv2. rewrite NotificationStatus_canonical, Hreg by done.
    assert (Hperm : map_to_list (<[app2:=n2]> ({[app1 := n1]} : gmap appname notification))
                    ≡ₚ [(app2, n2); (app1, n1)]).
    { rewrite map_to_list_insert by (by apply lookup_singleton_ne).
      by rewrite map_to_list_singleton. }
    rewrite (Strings_proper _ _ (spec_fragments_proper _ _ Hperm)).
    rewrite !spec_fragments_cons, !decide_False by done.
    change (spec_fragments []) with (@nil string).
    rewrite (Strings_proper _ [notificationDisplay app1 n1; notificationDisplay app2 n2])
      by apply Permutation_swap.
    rewrite Strings_pair. by destruct (decide _).
Qed.

Lemma NotificationStatus_one_or_two_witness :
  RangeOrder reverseRange
  ∧ NotificationStatus reverseRange
      (set_notifications {[ "mail.hobsons.com" := {| label := "3"; updatedAt := 7 |} ]}
         sampleServer)
    = notificationDisplay "mail.hobsons.com" {| label := "3"; updatedAt := 7 |}.
Proof.
  split; [exact RangeOrder_reverse|].
  exact (proj1 (NotificationStatus_one_or_two reverseRange
                  (set_notifications
                     {[ "mail.hobsons.com" := {| label := "3"; updatedAt := 7 |} ]}
                     sampleServer)
                  "mail.hobsons.com" "" {| label := "3"; updatedAt := 7 |}
                  {| label := ""; updatedAt := 0 |} RangeOrder_reverse) eq_refl).
Defined.

Lemma appIcon_cases app :
  let icon := if bool_decide (map_index appDisplayIcons app = "") then unknownAppIcon
              else map_index appDisplayIcons app in
  (appDisplayIcons !! app = Some icon ∨ (appDisplayIcons !! app = None ∧ icon = "·"))
  ∧ (icon = "σ" ∨ icon = "@" ∨ icon = "π" ∨ icon = "·").
Proof.
  unfold map_index. destruct (appDisplayIcons !! app) as [i|] eqn:Hi; cbn.
  - pose proof (appDisplayIcons_nonempty _ _ Hi).
    rewrite bool_decide_eq_false_2 by done. split; [by left|].
    apply appDisplayIcons_lookup in Hi. rewrite !elem_of_cons in Hi.
    destruct Hi as [?|[?|[?|Hi]]]; [tauto..|]. by apply elem_of_nil in Hi.
  - split; [by right|]. tauto.
Qed.

(** X19: no icon is the beginning of another, so the fragments of two
    visible records whose sources have different icons (two different
    known sources, or a known and an unknown one) are never the same
    string, whatever their labels. *)
Theorem notificationDisplay_distinct_icons (app1 app2 : appname) (n1 n2 : notification) :
  appDisplayIcons !! app1 ≠ appDisplayIcons !! app2 →
  ¬ (label n1 = "" ∨ label n1 = "0") → ¬ (label n2 = "" ∨ label n2 = "0") →
  notificationDisplay app1 n1 ≠ notificationDisplay app2 n2.
Proof.
  intros Hicons Hv1 Hv2. unfold notificationDisplay, fmt.Sprint2.
  rewrite (bool_decide_eq_false_2 (label n1 = "")),
    (bool_decide_eq_false_2 (label n1 = "0")),
    (bool_decide_eq_false_2 (label n2 = "")),
    (bool_decide_eq_false_2 (label n2 = "0")) by tauto.
  cbn [orb]. cbn zeta.
  destruct (appIcon_cases app1) as [Hl1 Hg1]. destruct (appIcon_cases app2) as [Hl2 Hg2].
  cbn zeta in *.
  set (i1 := if bool_decide (map_index appDisplayIcons app1 = "") then unknownAppIcon
             else map_index appDisplayIcons app1) in *.
  set (i2 := if bool_decide (map_index appDisplayIcons app2 = "") then unknownAppIcon
             else map_index appDisplayIcons app2) in *.
  assert (Hne : i1 ≠ i2).
  { intros Heq. apply Hicons. rewrite Heq in Hl1.
    destruct Hl1 as [Hl1|[Hl1 Hu1]], Hl2 as [Hl2|[Hl2 Hu2]]; try congruence.
    - rewrite Hu2 in Hl1. by apply appDisplayIcons_lookup in Hl1;
        repeat (apply elem_of_cons in Hl1 as [Hl1|Hl1]; [discriminate|]);
        apply elem_of_nil in Hl1.
    - rewrite Hu1 in Hl2. by apply appDisplayIcons_lookup in Hl2;
        repeat (apply elem_of_cons in Hl2 as [Hl2|Hl2]; [discriminate|]);
        apply elem_of_nil in Hl2. }
  clearbody i1 i2.
  destruct Hg1 as [-> | [-> | [-> | ->]]], Hg2 as [-> | [-> | [-> | ->]]];
    try (by destruct Hne);
    destruct (bool_decide (label n1 = "1")), (bool_decide (label n2 = "1"));
    cbv [String.append]; discriminate.
Qed.

Lemma notificationDisplay_distinct_icons_witness :
  appDisplayIcons !! "mail.hobsons.com" ≠ appDisplayIcons !! "hangouts.google.com"
  ∧ notificationDisplay "mail.hobsons.com" {| label := "1"; updatedAt := 0 |}
    ≠ notificationDisplay "hangouts.google.com" {| label := "1"; updatedAt := 0 |}.
Proof.
  assert (H : appDisplayIcons !! "mail.hobsons.com"
              ≠ appDisplayIcons !! "hangouts.google.com") by (vm_compute; discriminate).
  split; [exact H|].
  exact (notificationDisplay_distinct_icons "mail.hobsons.com" "hangouts.google.com"
           {| label := "1"; updatedAt := 0 |} {| label := "1"; updatedAt := 0 |} H
           ltac:(intros [?|?]; discriminate) ltac:(intros [?|?]; discriminate)).
Defined.
